(** * Object context of winery.js (src/lib/object-context.ts)

    A shallow embedding of [ScopedObjectContext] (the scope resolver) and
    [ScopedObjectContextDef] (the scope definition with its dependency
    analysis).  The collaborators of the file that live in other modules of
    the repository ([Uri.tryParse], the type and provider registries, the
    named-object registry and [ObjectContextDependency]) are modelled from
    the spec; the factories and providers themselves are parameters. *)

From stdpp Require Import base gmap strings list.
From Stdlib Require Import ZArith Ascii String.

Local Open Scope Z_scope.

Set Warnings "-register-all".

Notation "s1 +++ s2" := (String.append s1 s2) (at level 60, right associativity).

(** The one-character string made of a double quote. *)
Definition dq : string := String "034"%char EmptyString.

(** ** JavaScript values *)

(** A JS value as the code receives it from declarations (parsed JSON).
    Numbers are modelled as integers.  The field list of [JObj] is the
    list of the object's own properties in property-enumeration order
    (the order [Object.getOwnPropertyNames] returns), with distinct keys. *)
Inductive jvalue : Type :=
| JUndef
| JNull
| JBool (b : bool)
| JNum (n : Z)
| JStr (s : string)
| JArr (elems : list jvalue)
| JObj (fields : list (string * jvalue)).

(** [typeof v] *)
Definition typeof (v : jvalue) : string :=
  match v with
  | JUndef => "undefined"
  | JNull => "object"
  | JBool _ => "boolean"
  | JNum _ => "number"
  | JStr _ => "string"
  | JArr _ => "object"
  | JObj _ => "object"
  end.

(** Own property lookup on an object literal. *)
Fixpoint prop_get (fields : list (string * jvalue)) (k : string) : option jvalue :=
  match fields with
  | [] => None
  | (k', v) :: rest => if String.eqb k k' then Some v else prop_get rest k
  end.

(** [x == null] *)
Definition is_nullish (v : jvalue) : bool :=
  match v with JUndef | JNull => true | _ => false end.

(** Exceptions a call can raise. [Thrown] is a thrown value that is not an
    [Error] object (a string). *)
Inductive exn : Type :=
| Error (msg : string)
| TypeError
| Thrown (s : string).

Inductive result (A : Type) : Type :=
| Ok (a : A)
| Throw (e : exn).
Arguments Ok {A} a.
Arguments Throw {A} e.

(** ** Decimal printing, [String(v)] and [JSON.stringify] *)

Definition digit_char (n : Z) : ascii := ascii_of_nat (48 + Z.to_nat n).

Fixpoint digits_of_pos (fuel : nat) (n : Z) (acc : string) : string :=
  match fuel with
  | O => acc
  | S f =>
      let acc' := String (digit_char (n mod 10)) acc in
      if n <? 10 then acc' else digits_of_pos f (n / 10) acc'
  end.

Definition string_of_Z (n : Z) : string :=
  if n <? 0 then "-" +++ digits_of_pos 64 (- n) EmptyString
  else digits_of_pos 64 n EmptyString.

Fixpoint join (sep : string) (l : list string) : string :=
  match l with
  | [] => EmptyString
  | [s] => s
  | s :: rest => s +++ sep +++ join sep rest
  end.

(** [String(v)], used by the string concatenations of the error messages. *)
Fixpoint js_to_string (v : jvalue) : string :=
  match v with
  | JUndef => "undefined"
  | JNull => "null"
  | JBool true => "true"
  | JBool false => "false"
  | JNum n => string_of_Z n
  | JStr s => s
  | JArr l =>
      join "," (map (fun e => match e with
                              | JUndef | JNull => EmptyString
                              | _ => js_to_string e end) l)
  | JObj _ => "[object Object]"
  end.

Definition hex_char (n : nat) : ascii :=
  if Nat.ltb n 10 then ascii_of_nat (48 + n) else ascii_of_nat (87 + n).

(** Escaping of a string literal by [JSON.stringify]. *)
Fixpoint json_escape (s : string) : string :=
  match s with
  | EmptyString => EmptyString
  | String c rest =>
      let n := nat_of_ascii c in
      let e :=
        if Nat.eqb n 34 then "\" +++ dq
        else if Nat.eqb n 92 then "\\"
        else if Nat.eqb n 8 then "\b"
        else if Nat.eqb n 12 then "\f"
        else if Nat.eqb n 10 then "\n"
        else if Nat.eqb n 13 then "\r"
        else if Nat.eqb n 9 then "\t"
        else if Nat.ltb n 32 then
          "\u00" +++ String (hex_char (n / 16)) (String (hex_char (n mod 16)) EmptyString)
        else String c EmptyString in
      e +++ json_escape rest
  end.

Definition json_quote (s : string) : string :=
  dq +++ json_escape s +++ dq.

(** [JSON.stringify v] for a value other than [undefined]: [undefined]
    array elements print as [null], [undefined] properties are omitted. *)
Fixpoint json_stringify (v : jvalue) : string :=
  match v with
  | JUndef => "null"
  | JNull => "null"
  | JBool true => "true"
  | JBool false => "false"
  | JNum n => string_of_Z n
  | JStr s => json_quote s
  | JArr l => "[" +++ join "," (map json_stringify l) +++ "]"
  | JObj fs =>
      let fix props (fs : list (string * jvalue)) : list string :=
        match fs with
        | [] => []
        | (_, JUndef) :: rest => props rest
        | (k, x) :: rest => (json_quote k +++ ":" +++ json_stringify x) :: props rest
        end in
      "{" +++ join "," (props fs) +++ "}"
  end.


(** ** Collaborators from other modules of the repository *)

(** Modelled from the spec: [Uri] and [Uri.tryParse] (object-provider.ts is
    not part of the sources).  "A plain string matching the pattern
    <protocol>:<path> (protocol = token before first colon) is a
    reference"; [tryParse] is pure and never throws, so a value that is not
    a string does not parse. *)
Record Uri : Type := mkUri { protocol : string; path : string }.

Fixpoint split_first_colon (s : string) : option (string * string) :=
  match s with
  | EmptyString => None
  | String c rest =>
      if Ascii.eqb c ":"%char then Some (EmptyString, rest)
      else match split_first_colon rest with
           | Some (p, q) => Some (String c p, q)
           | None => None
           end
  end.

Definition Uri_tryParse (v : jvalue) : option Uri :=
  match v with
  | JStr s =>
      match split_first_colon s with
      | Some (EmptyString, _) => None
      | Some (p, q) => Some (mkUri p q)
      | None => None
      end
  | _ => None
  end.

(** Declarations of a scope: builder declarations (object-type.ts),
    resolver declarations (object-provider.ts) and named-object
    declarations (named-object.ts), reduced to the fields this file reads;
    the rest of a declaration is kept as an opaque JS value. *)
Record TypeDef : Type := mkTypeDef { typeName : string; typeDecl : jvalue }.
Record ProviderDef : Type := mkProviderDef { providerProtocol : string; providerDecl : jvalue }.

(** Modelled from the spec: [ObjectContextDependency] (named-object.ts).
    "Dependency Set: three disjoint sets of strings: type-dependencies,
    protocol-dependencies, object-dependencies".  A JS [Set] is kept as the
    list of its elements in insertion order.  The type dependencies hold
    whatever [_type] held, so they are JS values. *)
Record ObjectContextDependency : Type := mkDependency {
  typeDependencies : list jvalue;
  protocolDependencies : list string;
  objectDependencies : list string
}.

Definition emptyDependency : ObjectContextDependency := mkDependency [] [] [].

(** [SameValueZero] on the values a declaration holds: primitives by value;
    two objects of a parsed declaration tree are distinct references. *)
Definition same_value_zero (a b : jvalue) : bool :=
  match a, b with
  | JUndef, JUndef | JNull, JNull => true
  | JBool x, JBool y => Bool.eqb x y
  | JNum x, JNum y => Z.eqb x y
  | JStr x, JStr y => String.eqb x y
  | _, _ => false
  end.

(** [Set.prototype.add] on a set of strings. *)
Definition set_add (s : list string) (x : string) : list string :=
  if existsb (String.eqb x) s then s else s ++ [x].

Definition setTypeDependency (d : ObjectContextDependency) (t : jvalue) : ObjectContextDependency :=
  mkDependency
    (if existsb (same_value_zero t) (typeDependencies d) then typeDependencies d
     else typeDependencies d ++ [t])
    (protocolDependencies d) (objectDependencies d).

Definition setProtocolDependency (d : ObjectContextDependency) (p : string) : ObjectContextDependency :=
  mkDependency (typeDependencies d) (set_add (protocolDependencies d) p) (objectDependencies d).

Definition setObjectDependency (d : ObjectContextDependency) (n : string) : ObjectContextDependency :=
  mkDependency (typeDependencies d) (protocolDependencies d) (set_add (objectDependencies d) n).

(** [NamedObjectDef]: [dependencies] is optional.  Only the first pass of
    the dependency analysis assigns it ([def.dependencies = new
    ObjectContextDependency()], line 432); a declaration as given, or one of
    a definition built without analysis, has none ([undefined], [None]). *)
Record NamedObjectDef : Type := mkNamedObjectDef {
  name : string;
  value : jvalue;
  dependencies : option ObjectContextDependency
}.

(** [def.dependencies.<field>]: reading a field of [undefined] throws a
    [TypeError]. *)
Definition readDeps (d : NamedObjectDef) : result ObjectContextDependency :=
  match dependencies d with
  | Some deps => Ok deps
  | None => Throw TypeError
  end.

(** ** Scope definition: [ScopedObjectContextDef] *)

(** A JS [Map] with string keys: association list, [set] replaces the
    value of an existing key in place and appends a new key. *)
Fixpoint map_set {V} (m : list (string * V)) (k : string) (v : V) : list (string * V) :=
  match m with
  | [] => [(k, v)]
  | (k', v') :: rest => if String.eqb k k' then (k, v) :: rest else (k', v') :: map_set rest k v
  end.

Fixpoint map_get {V} (m : list (string * V)) (k : string) : option V :=
  match m with
  | [] => None
  | (k', v) :: rest => if String.eqb k k' then Some v else map_get rest k
  end.

(** [Map.get] with an arbitrary JS key: only a string matches a string key. *)
Definition map_get_any {V} (m : list (string * V)) (k : jvalue) : option V :=
  match k with JStr s => map_get m s | _ => None end.

Inductive ScopedObjectContextDef : Type := mkScopedObjectContextDef {
  def_parent : option ScopedObjectContextDef;
  typeDefs : list TypeDef;
  providerDefs : list ProviderDef;
  namedObjectDefs : list NamedObjectDef
}.

(** The three maps the constructor fills from the declaration lists. *)
Definition typeNameToDef (d : ScopedObjectContextDef) : list (string * TypeDef) :=
  fold_left (fun m def => map_set m (typeName def) def) (typeDefs d) [].
Definition protocolNameToDef (d : ScopedObjectContextDef) : list (string * ProviderDef) :=
  fold_left (fun m def => map_set m (providerProtocol def) def) (providerDefs d) [].
Definition objectNameToDef (d : ScopedObjectContextDef) : list (string * NamedObjectDef) :=
  fold_left (fun m def => map_set m (name def) def) (namedObjectDefs d) [].

(** [getTypeDef(typeName, maxDepth)]. *)
Fixpoint getTypeDef (d : ScopedObjectContextDef) (tn : jvalue) (maxDepth : Z) : option TypeDef :=
  match map_get_any (typeNameToDef d) tn with
  | Some def => Some def
  | None =>
      if 0 <? maxDepth then
        match d with
        | mkScopedObjectContextDef (Some p) _ _ _ => getTypeDef p tn (maxDepth - 1)
        | _ => None
        end
      else None
  end.

(** [getProviderDef(protocolName, maxDepth)]. *)
Fixpoint getProviderDef (d : ScopedObjectContextDef) (pn : string) (maxDepth : Z) : option ProviderDef :=
  match map_get (protocolNameToDef d) pn with
  | Some def => Some def
  | None =>
      if 0 <? maxDepth then
        match d with
        | mkScopedObjectContextDef (Some p) _ _ _ => getProviderDef p pn (maxDepth - 1)
        | _ => None
        end
      else None
  end.

(** [getNamedObjectDef(name, maxDepth)]. *)
Fixpoint getNamedObjectDef (d : ScopedObjectContextDef) (n : string) (maxDepth : Z) : option NamedObjectDef :=
  match map_get (objectNameToDef d) n with
  | Some def => Some def
  | None =>
      if 0 <? maxDepth then
        match d with
        | mkScopedObjectContextDef (Some p) _ _ _ => getNamedObjectDef p n (maxDepth - 1)
        | _ => None
        end
      else None
  end.

(** The default argument [maxDepth: number = 32]. *)
Definition defaultMaxDepth : Z := 32.

(** *** Dependency analysis *)

(** [ScopedObjectContextDef.analyzeDirectDependencies(dep, jsValue)].
    [typeof null === 'object'], so [null] takes the object branch, where
    reading [jsValue['_type']] throws a [TypeError].  An array has no
    [_type]; its own property names are its indices followed by [length],
    a number, which adds nothing. *)
Fixpoint analyzeDirectDependencies (dep : ObjectContextDependency) (v : jvalue)
  : result ObjectContextDependency :=
  match v with
  | JStr _ =>
      match Uri_tryParse v with
      | Some u => Ok (setProtocolDependency dep (protocol u))
      | None => Ok dep
      end
  | JNull => Throw TypeError
  | JArr l =>
      let fix elems (dep : ObjectContextDependency) (l : list jvalue) :=
        match l with
        | [] => Ok dep
        | x :: rest =>
            match analyzeDirectDependencies dep x with
            | Ok dep' => elems dep' rest
            | Throw e => Throw e
            end
        end in
      elems dep l
  | JObj fs =>
      let dep0 :=
        match prop_get fs "_type" with
        | Some t => if is_nullish t then dep else setTypeDependency dep t
        | None => dep
        end in
      let fix props (dep : ObjectContextDependency) (fs : list (string * jvalue)) :=
        match fs with
        | [] => Ok dep
        | (_, x) :: rest =>
            match analyzeDirectDependencies dep x with
            | Ok dep' => props dep' rest
            | Throw e => Throw e
            end
        end in
      props dep0 fs
  | _ => Ok dep
  end.

(** The [forEach] of the type check: the first type dependency that
    [getTypeDef] does not find raises. *)
Fixpoint checkTypeDeps (self : ScopedObjectContextDef) (defName : string) (ts : list jvalue)
  : result unit :=
  match ts with
  | [] => Ok tt
  | t :: rest =>
      match getTypeDef self t defaultMaxDepth with
      | None => Throw (Error ("Unrecoginized type '" +++ js_to_string t
                              +++ "' found in named object '" +++ defName +++ "'."))
      | Some _ => checkTypeDeps self defName rest
      end
  end.

Fixpoint checkProtocolDeps (self : ScopedObjectContextDef) (defName : string) (ps : list string)
  : result unit :=
  match ps with
  | [] => Ok tt
  | p :: rest =>
      match getProviderDef self p defaultMaxDepth with
      | None => Throw (Error ("Unrecongized URI protocol '" +++ p
                              +++ "' found in named object '" +++ defName +++ "'."))
      | Some _ => checkProtocolDeps self defName rest
      end
  end.

(** First pass: [def.dependencies = new ObjectContextDependency()], direct
    dependencies, type check, protocol check, one declaration after the
    other.  Returns the declarations with their new dependency sets. *)
Fixpoint firstPass (self : ScopedObjectContextDef) (defs : list NamedObjectDef)
  : result (list NamedObjectDef) :=
  match defs with
  | [] => Ok []
  | def :: rest =>
      match analyzeDirectDependencies emptyDependency (value def) with
      | Throw e => Throw e
      | Ok deps =>
          match checkTypeDeps self (name def) (typeDependencies deps) with
          | Throw e => Throw e
          | Ok _ =>
              match checkProtocolDeps self (name def) (protocolDependencies deps) with
              | Throw e => Throw e
              | Ok _ =>
                  match firstPass self rest with
                  | Throw e => Throw e
                  | Ok rest' => Ok (mkNamedObjectDef (name def) (value def) (Some deps) :: rest')
                  end
              end
          end
      end
  end.

(** A record of [toResolve]; [rec_index] is the position of its declaration
    in [_objectDefs], whose dependency set the second pass updates in place. *)
Record PendingRecord : Type := mkPending {
  unresolvedDeps : list string;
  rec_def : NamedObjectDef;
  rec_index : nat
}.

(** [record.def.dependencies] of a pending record.  A record is created
    only for a declaration whose set the initial loop has read, so the
    [None] branch is never taken. *)
Definition recordDeps (d : NamedObjectDef) : ObjectContextDependency :=
  match dependencies d with
  | Some deps => deps
  | None => emptyDependency
  end.

(** [Object.keys(record.unresolvedDeps)]: the elements of a [Set] are kept
    in an internal slot; a [Set] has no own enumerable string-keyed
    property, so [Object.keys] returns the empty array whatever it holds. *)
Definition object_keys_of_set (s : list string) : list string := [].

Definition set_delete (s : list string) (x : string) : list string :=
  List.filter (fun y => negb (String.eqb x y)) s.

(** The body of [for (let dep of unresolvedDeps)]. *)
Definition absorb (resolved : list (string * list string)) (r : PendingRecord) (dep : string)
  : PendingRecord :=
  match map_get resolved dep with
  | Some depClosure =>
      mkPending (set_delete (unresolvedDeps r) dep)
        (mkNamedObjectDef (name (rec_def r)) (value (rec_def r))
           (Some (fold_left setObjectDependency depClosure (recordDeps (rec_def r)))))
        (rec_index r)
  | None => r
  end.

(** One round of the multi-round resolution: returns [resolved],
    [remaining], the records resolved so far and [resolvedThisRound]. *)
Fixpoint resolveRound (resolved : list (string * list string)) (toResolve remaining done : list PendingRecord)
  (resolvedThisRound : nat)
  : list (string * list string) * list PendingRecord * list PendingRecord * nat :=
  match toResolve with
  | [] => (resolved, remaining, done, resolvedThisRound)
  | record :: rest =>
      let unresolved := object_keys_of_set (unresolvedDeps record) in
      let record' := fold_left (absorb resolved) unresolved record in
      if Nat.eqb (List.length unresolved) 0 then
        resolveRound
          (map_set resolved (name (rec_def record')) (objectDependencies (recordDeps (rec_def record'))))
          rest remaining (done ++ [record']) (S resolvedThisRound)
      else resolveRound resolved rest (remaining ++ [record']) done resolvedThisRound
  end.

(** The [while (toResolve.length != 0)] loop.  A round that does not throw
    resolves at least one record, so [length toResolve + 1] rounds are
    enough.  [throw new Error(m) + "'."] throws the string
    ["Error: " + m + "'."]. *)
Fixpoint resolveLoop (fuel : nat) (resolved : list (string * list string)) (toResolve done : list PendingRecord)
  : result (list PendingRecord) :=
  match fuel with
  | O => Ok done
  | S f =>
      match toResolve with
      | [] => Ok done
      | _ :: _ =>
          let '(resolved', remaining, done', cnt) := resolveRound resolved toResolve [] done 0 in
          if Nat.eqb cnt 0 then
            Throw (Thrown ("Error: Undefined named object or cyclic dependencies found: '"
                           +++ join "," (map (fun r => name (rec_def r)) toResolve) +++ "'."))
          else resolveLoop f resolved' remaining done'
      end
  end.

(** Creation of [resolved] and [toResolve] from the declarations, in
    declaration order ([i] is the position of the declaration); reading
    [def.dependencies.objectDependencies] of a declaration without a set
    throws, and the loop stops there. *)
Definition initStep (acc : result (list (string * list string) * list PendingRecord * nat))
  (def : NamedObjectDef) : result (list (string * list string) * list PendingRecord * nat) :=
  match acc with
  | Throw e => Throw e
  | Ok (resolved, toResolve, i) =>
      match readDeps def with
      | Throw e => Throw e
      | Ok deps =>
          let objectDeps := objectDependencies deps in
          match objectDeps with
          | _ :: _ => Ok (resolved, toResolve ++ [mkPending objectDeps def i], S i)
          | [] => Ok (map_set resolved (name def) objectDeps, toResolve, S i)
          end
      end
  end.

Definition initClosure (defs : list NamedObjectDef)
  : result (list (string * list string) * list PendingRecord) :=
  match fold_left initStep defs (Ok ([], [], O)) with
  | Ok (resolved, toResolve, _) => Ok (resolved, toResolve)
  | Throw e => Throw e
  end.

(** Write the dependency sets of the resolved records back into the
    declarations they belong to. *)
Definition writeBack (defs : list NamedObjectDef) (done : list PendingRecord) : list NamedObjectDef :=
  imap (fun i def =>
          match List.find (fun r => Nat.eqb (rec_index r) i) done with
          | Some r => rec_def r
          | None => def
          end) defs.

(** Second pass: closure of the object dependencies. *)
Definition secondPass (defs : list NamedObjectDef) : result (list NamedObjectDef) :=
  match initClosure defs with
  | Throw e => Throw e
  | Ok (resolved, toResolve) =>
      match resolveLoop (S (List.length toResolve)) resolved toResolve [] with
      | Ok done => Ok (writeBack defs done)
      | Throw e => Throw e
      end
  end.

(** [analyzeNamedObjectDependencies()]: the declarations of [self] with
    their computed dependency sets. *)
Definition analyzeNamedObjectDependencies (self : ScopedObjectContextDef) : result (list NamedObjectDef) :=
  match firstPass self (namedObjectDefs self) with
  | Ok defs => secondPass defs
  | Throw e => Throw e
  end.

(** [new ScopedObjectContextDef(parentDefinition, typeDefs, providerDefs,
    objectDefs, enableDependencyAnalysis)]. *)
Definition new_ScopedObjectContextDef (parentDefinition : option ScopedObjectContextDef)
  (tds : list TypeDef) (pds : list ProviderDef) (objectDefs : list NamedObjectDef)
  (enableDependencyAnalysis : bool) : result ScopedObjectContextDef :=
  let self := mkScopedObjectContextDef parentDefinition tds pds objectDefs in
  if enableDependencyAnalysis then
    match analyzeNamedObjectDependencies self with
    | Ok defs => Ok (mkScopedObjectContextDef parentDefinition tds pds defs)
    | Throw e => Throw e
    end
  else Ok self.

(** ** Scope resolver: [ScopedObjectContext] *)

(** A materialized named object [{def, value, scope}].  [no_id] is the
    identity of the JS object: two objects are the same object when they
    carry the same identity; an object literal gets a fresh one. *)
Record NamedObject : Type := mkNamedObject {
  no_id : nat;
  no_def : NamedObjectDef;
  no_value : jvalue;
  no_scope : string
}.

(** Modelled from the spec: the builder catalog ([TypeRegistry], object-type.ts)
    and the resolver catalog ([ProviderRegistry], object-provider.ts), built
    from a scope's declarations; "supports(typeName)" / "supports(protocol)"
    hold for the names the catalog is indexed by. *)
Record ObjectFactory : Type := mkObjectFactory { factoryTypeDefs : list TypeDef; factoryBaseDir : string }.
Record ObjectProvider : Type := mkObjectProvider { providerDefsOf : list ProviderDef; providerBaseDir : string }.

Definition factory_supports (f : ObjectFactory) (tn : jvalue) : bool :=
  match tn with
  | JStr s => existsb (fun td => String.eqb (typeName td) s) (factoryTypeDefs f)
  | _ => false
  end.

Definition provider_supports (p : ObjectProvider) (proto : string) : bool :=
  existsb (fun pd => String.eqb (providerProtocol pd) proto) (providerDefsOf p).

(** A resolver.  Its immutable fields are here; its named-object registry
    ([_namedObjects], the only mutable part) lives in the [World] under
    [ctx_id]. *)
Inductive ScopedObjectContext : Type := mkScopedObjectContext {
  ctx_id : nat;
  scope : string;
  baseDir : string;
  def : ScopedObjectContextDef;
  parent : option ScopedObjectContext
}.

Definition objectFactory (c : ScopedObjectContext) : ObjectFactory :=
  mkObjectFactory (typeDefs (def c)) (baseDir c).
Definition objectProvider (c : ScopedObjectContext) : ObjectProvider :=
  mkObjectProvider (providerDefs (def c)) (baseDir c).

(** Modelled from the spec: [NamedObjectRegistry] (named-object.ts), "get(name)
    -> declaration|absent, insert(materializedObject), forEach(callback)";
    a map keyed by the declaration name, in insertion order, where an insert
    overwrites the slot of the same name ("last-write-wins on the cache
    slot"). *)
Definition Registry : Type := list NamedObject.

Definition registry_get (reg : Registry) (n : string) : option NamedObject :=
  List.find (fun o => String.eqb (name (no_def o)) n) reg.

Fixpoint registry_insert (reg : Registry) (o : NamedObject) : Registry :=
  match reg with
  | [] => [o]
  | o' :: rest =>
      if String.eqb (name (no_def o')) (name (no_def o)) then o :: rest
      else o' :: registry_insert rest o
  end.

(** The mutable state: every resolver's registry, and the next fresh object
    identity. *)
Record World : Type := mkWorld {
  namedObjects : gmap nat Registry;
  nextObjectId : nat
}.

Definition registry_of (w : World) (c : ScopedObjectContext) : Registry :=
  default [] (namedObjects w !! ctx_id c).

(** State and exception monad: a throw keeps the state reached so far. *)
Definition M (A : Type) : Type := World -> result A * World.

Definition ret {A} (a : A) : M A := fun w => (Ok a, w).
Definition raise {A} (e : exn) : M A := fun w => (Throw e, w).
Definition lift {A} (r : result A) : M A := fun w => (r, w).
Definition bind {A B} (m : M A) (k : A -> M B) : M B :=
  fun w => match m w with
           | (Ok a, w') => k a w'
           | (Throw e, w') => (Throw e, w')
           end.

Notation "'let!' x := m 'in' k" := (bind m (fun x => k))
  (at level 200, x name, m at level 100, k at level 200).

(** The argument of [provider.provide]: one URI or the list of URIs. *)
Inductive UriArg : Type :=
| OneUri (u : Uri)
| UriList (us : list Uri).

(** [v.hasOwnProperty('_type')]: [null] and [undefined] have no methods; an
    own property named [hasOwnProperty] (never a function in a declaration)
    hides the method, and calling it throws. *)
Definition hasOwnType (v : jvalue) : result bool :=
  match v with
  | JUndef | JNull => Throw TypeError
  | JObj fs =>
      match prop_get fs "hasOwnProperty" with
      | Some _ => Throw TypeError
      | None => Ok (match prop_get fs "_type" with Some _ => true | None => false end)
      end
  | _ => Ok false
  end.

(** [v['_type']] *)
Definition typeOf_field (v : jvalue) : jvalue :=
  match v with
  | JObj fs => default JUndef (prop_get fs "_type")
  | _ => JUndef
  end.

(** [input.every(uri => { ... uris.push(ret.uri) ... })]. *)
Fixpoint parseAll (l : list jvalue) : option (list Uri) :=
  match l with
  | [] => Some []
  | x :: rest =>
      match Uri_tryParse x with
      | Some u => match parseAll rest with Some us => Some (u :: us) | None => None end
      | None => None
      end
  end.

(** The walks of [selectProvider] and [selectFactory], from a scope to the
    root. *)
Fixpoint providerFrom (c : ScopedObjectContext) (proto : string) : option ObjectProvider :=
  if provider_supports (objectProvider c) proto then Some (objectProvider c)
  else match c with
       | mkScopedObjectContext _ _ _ _ (Some p) => providerFrom p proto
       | _ => None
       end.

Fixpoint factoryFrom (c : ScopedObjectContext) (tn : jvalue) : option ObjectFactory :=
  if factory_supports (objectFactory c) tn then Some (objectFactory c)
  else match c with
       | mkScopedObjectContext _ _ _ _ (Some p) => factoryFrom p tn
       | _ => None
       end.

Definition selectProvider (self : ScopedObjectContext) (uri : Uri) (input : jvalue) : result ObjectProvider :=
  match providerFrom self (protocol uri) with
  | Some p => Ok p
  | None => Throw (Error ("Cannot create object, URI protocol '" +++ protocol uri
                          +++ "' is not supported. Input=" +++ json_stringify input))
  end.

Definition selectFactory (self : ScopedObjectContext) (tn : jvalue) (input : jvalue) : result ObjectFactory :=
  match factoryFrom self tn with
  | Some f => Ok f
  | None => Throw (Error ("Cannot create object, _type '" +++ js_to_string tn
                          +++ "' is not supported. Input=" +++ json_stringify input))
  end.

(** [needsUpdate(namedObject, depth)]: each of the three blocks is
    entered only when the requester's own definition has a non-empty list
    of that kind; it reads [def.dependencies] (lines 261, 269, 278), which
    throws a [TypeError] when the declaration has no set, and returns
    [true] as soon as one dependency of its kind is mapped by the
    requester's definition chain within [depth - 1] hops. *)
Definition needsUpdate (self : ScopedObjectContext) (namedObject : NamedObject) (depth : Z) : result bool :=
  match parent self with
  | None => Ok false
  | Some _ =>
      let d := no_def namedObject in
      let overrides := def self in
      let typeBlock :=
        if negb (Nat.eqb (List.length (typeDefs (def self))) 0) then
          match readDeps d with
          | Throw e => Throw e
          | Ok deps =>
              Ok (existsb (fun typeDep => match getTypeDef overrides typeDep (depth - 1) with
                                          | Some _ => true | None => false end)
                    (typeDependencies deps))
          end
        else Ok false in
      match typeBlock with
      | Throw e => Throw e
      | Ok true => Ok true
      | Ok false =>
          let providerBlock :=
            if negb (Nat.eqb (List.length (providerDefs (def self))) 0) then
              match readDeps d with
              | Throw e => Throw e
              | Ok deps =>
                  Ok (existsb (fun providerDep => match getProviderDef overrides providerDep (depth - 1) with
                                                  | Some _ => true | None => false end)
                        (protocolDependencies deps))
              end
            else Ok false in
          match providerBlock with
          | Throw e => Throw e
          | Ok true => Ok true
          | Ok false =>
              if negb (Nat.eqb (List.length (namedObjectDefs (def self))) 0) then
                match readDeps d with
                | Throw e => Throw e
                | Ok deps =>
                    Ok (existsb (fun objectDep => match getNamedObjectDef overrides objectDep (depth - 1) with
                                                  | Some _ => true | None => false end)
                          (objectDependencies deps))
                end
              else Ok false
          end
      end
  end.

(** [forEach(callback)]: the callback is modelled by the sequence of the
    objects it receives, in call order. *)
Definition visitRegistry (acc : list string * list NamedObject) (o : NamedObject)
  : list string * list NamedObject :=
  let '(visited, out) := acc in
  if existsb (String.eqb (name (no_def o))) visited then (visited, out)
  else (visited ++ [name (no_def o)], out ++ [o]).

Fixpoint forEachFrom (w : World) (visited : list string) (currentScope : ScopedObjectContext)
  : list NamedObject :=
  let '(visited', out) := fold_left visitRegistry (registry_of w currentScope) (visited, []) in
  out ++ match currentScope with
         | mkScopedObjectContext _ _ _ _ (Some p) => forEachFrom w visited' p
         | _ => []
         end.

Definition forEach (self : ScopedObjectContext) (w : World) : list NamedObject :=
  forEachFrom w [] self.

(** Insert a fresh object into a resolver's registry. *)
Definition insertNamed (self : ScopedObjectContext) (o : NamedObject) (w : World) : World :=
  mkWorld (<[ctx_id self := registry_insert (registry_of w self) o]> (namedObjects w))
          (nextObjectId w).

Definition newObjectId : M nat :=
  fun w => (Ok (nextObjectId w), mkWorld (namedObjects w) (S (nextObjectId w))).

Section Resolution.

(** The builders and resolvers of the catalogs ([factory.create(input, this)]
    and [provider.provide(uris, this)]): arbitrary computations that may
    read and change the state (for instance through [context.get]) and may
    throw. *)
Variable factory_create : ObjectFactory -> jvalue -> ScopedObjectContext -> M jvalue.
Variable provider_provide : ObjectProvider -> UriArg -> ScopedObjectContext -> M jvalue.

(** [typeof input === 'object']: [input.hasOwnProperty('_type')], then the
    factory of the tag. *)
Definition createTagged (self : ScopedObjectContext) (x input : jvalue) : M jvalue :=
  let! has := lift (hasOwnType x) in
  if has then
    let! factory := lift (selectFactory self (typeOf_field x) input) in
    factory_create factory input self
  else ret input.

(** [create(input)]. *)
Definition create (self : ScopedObjectContext) (input : jvalue) : M jvalue :=
  match input with
  | JArr [] => ret input
  | JArr ((x :: _) as l) =>
      if String.eqb (typeof x) "string" then
        match parseAll l with
        | None => ret input
        | Some uris =>
            let! provider := lift (selectProvider self (hd (mkUri EmptyString EmptyString) uris) input) in
            provider_provide provider (UriList uris) self
        end
      else if String.eqb (typeof x) "object" then createTagged self x input
      else ret input
  | JStr _ =>
      match Uri_tryParse input with
      | Some uri =>
          let! provider := lift (selectProvider self uri input) in
          provider_provide provider (OneUri uri) self
      | None => ret input
      end
  | _ =>
      if String.eqb (typeof input) "object" then createTagged self input input
      else ret input
  end.

(** The rebuild of [get]: [{def, value: this.create(def.value), scope: this._scope}]
    inserted into this resolver's registry. *)
Definition rebuild (self : ScopedObjectContext) (namedObject : NamedObject) : M (option NamedObject) :=
  let! v := create self (value (no_def namedObject)) in
  let! id := newObjectId in
  let o := mkNamedObject id (no_def namedObject) v (scope self) in
  fun w => (Ok (Some o), insertNamed self o w).

(** The [while (parent != null)] loop of [get], at ancestor [p], [depth]
    hops above the requester. *)
Fixpoint getFromAncestors (self : ScopedObjectContext) (n : string) (depth : Z) (p : ScopedObjectContext)
  : M (option NamedObject) :=
  fun w =>
    match registry_get (registry_of w p) n with
    | Some namedObject =>
        match needsUpdate self namedObject depth with
        | Ok true => rebuild self namedObject w
        | Ok false => (Ok (Some namedObject), w)
        | Throw e => (Throw e, w)
        end
    | None =>
        match p with
        | mkScopedObjectContext _ _ _ _ (Some pp) => getFromAncestors self n (depth + 1) pp w
        | _ => (Ok None, w)
        end
    end.

(** [get(name)]; [null] is [None]. *)
Definition get (self : ScopedObjectContext) (n : string) : M (option NamedObject) :=
  fun w =>
    match registry_get (registry_of w self) n with
    | Some namedObject => (Ok (Some namedObject), w)
    | None =>
        match parent self with
        | Some p => getFromAncestors self n 1 p w
        | None => (Ok None, w)
        end
    end.

End Resolution.

(** ** The resolver chain, as lists *)

(** The ancestors of a resolver, nearest first. *)
Fixpoint ancestors (c : ScopedObjectContext) : list ScopedObjectContext :=
  match c with
  | mkScopedObjectContext _ _ _ _ (Some p) => p :: ancestors p
  | _ => []
  end.

(** The first hit of [f] along a list. *)
Fixpoint first_hit {A B} (f : A -> option B) (l : list A) : option B :=
  match l with
  | [] => None
  | x :: rest => match f x with Some b => Some b | None => first_hit f rest end
  end.

(** The object of a name nearest to the requester along a chain of
    resolvers. *)
Definition chainLookup (w : World) (cs : list ScopedObjectContext) (n : string) : option NamedObject :=
  first_hit (fun c => registry_get (registry_of w c) n) cs.

(** The definitions reachable from [d] with a hop budget [n], nearest
    first. *)
Fixpoint reachableDefs (d : ScopedObjectContextDef) (n : Z) : list ScopedObjectContextDef :=
  d :: (if 0 <? n then
          match d with
          | mkScopedObjectContextDef (Some p) _ _ _ => reachableDefs p (n - 1)
          | _ => []
          end
        else []).

(** ** What a declared value refers to *)

(** The type tags of a JS value: the [_type] of every object in it that
    is neither [null] nor [undefined], at any depth, in traversal order. *)
Fixpoint typeTags (v : jvalue) : list jvalue :=
  match v with
  | JArr l => flat_map typeTags l
  | JObj fs =>
      match prop_get fs "_type" with
      | Some t => if is_nullish t then [] else [t]
      | None => []
      end ++ flat_map (fun '(_, x) => typeTags x) fs
  | _ => []
  end.

(** The protocols of the reference strings of a JS value, at any depth. *)
Fixpoint uriProtocols (v : jvalue) : list string :=
  match v with
  | JStr _ => match Uri_tryParse v with Some u => [protocol u] | None => [] end
  | JArr l => flat_map uriProtocols l
  | JObj fs => flat_map (fun '(_, x) => uriProtocols x) fs
  | _ => []
  end.

(** The loops of [analyzeDirectDependencies] over the elements of an
    array and over the properties of an object, as functions of their
    own. *)
Fixpoint analyzeElems (dep : ObjectContextDependency) (l : list jvalue) : result ObjectContextDependency :=
  match l with
  | [] => Ok dep
  | x :: rest =>
      match analyzeDirectDependencies dep x with
      | Ok dep' => analyzeElems dep' rest
      | Throw e => Throw e
      end
  end.

Fixpoint analyzeProps (dep : ObjectContextDependency) (fs : list (string * jvalue)) : result ObjectContextDependency :=
  match fs with
  | [] => Ok dep
  | (_, x) :: rest =>
      match analyzeDirectDependencies dep x with
      | Ok dep' => analyzeProps dep' rest
      | Throw e => Throw e
      end
  end.

(** ** A three-level scenario: global, application, request *)

Module Scenario.

(** Builders and resolvers that return their input. *)
Definition echo_factory (_ : ObjectFactory) (input : jvalue) (_ : ScopedObjectContext) : M jvalue :=
  ret (JObj [("built", input)]).
Definition echo_provider (_ : ObjectProvider) (_ : UriArg) (_ : ScopedObjectContext) : M jvalue :=
  ret (JStr "provided").

Definition numberDecl : TypeDef := mkTypeDef "Number" (JStr "./number-v1").
Definition numberOverride : TypeDef := mkTypeDef "Number" (JStr "./number-v2").

Definition baseDecl : NamedObjectDef :=
  mkNamedObjectDef "base" (JObj [("_type", JStr "Number"); ("value", JNum 1)]) None.

Definition globalDefR : result ScopedObjectContextDef :=
  new_ScopedObjectContextDef None [numberDecl] [] [baseDecl] true.

Definition globalDef : ScopedObjectContextDef :=
  match globalDefR with
  | Ok d => d
  | Throw _ => mkScopedObjectContextDef None [] [] []
  end.

Definition appDef : ScopedObjectContextDef :=
  mkScopedObjectContextDef (Some globalDef) [numberOverride] [] [].
Definition requestDef : ScopedObjectContextDef :=
  mkScopedObjectContextDef (Some appDef) [] [] [].

Definition globalCtx : ScopedObjectContext := mkScopedObjectContext 0 "global" "/g" globalDef None.
Definition appCtx : ScopedObjectContext := mkScopedObjectContext 1 "application" "/a" appDef (Some globalCtx).
Definition requestCtx : ScopedObjectContext := mkScopedObjectContext 2 "request" "/r" requestDef (Some appCtx).

Definition baseAnalyzed : NamedObjectDef := default baseDecl (head (namedObjectDefs globalDef)).

(** The global registry holds [base], built from its declaration. *)
Definition globalBase : NamedObject :=
  mkNamedObject 0 baseAnalyzed (JObj [("built", value baseDecl)]) "global".

Definition world0 : World :=
  mkWorld (<[0%nat := [globalBase]]> (<[1%nat := []]> (<[2%nat := []]> ∅))) 1.

(** The object [get("base")] builds at the application scope, and the
    state after it. *)
Definition appBase : NamedObject :=
  mkNamedObject 1 baseAnalyzed (JObj [("built", value baseAnalyzed)]) "application".
Definition world1 : World :=
  mkWorld (<[1%nat := [appBase]]> (namedObjects world0)) 2.

(** A request scope that declares only an unrelated type, [Other]. *)
Definition otherDecl : TypeDef := mkTypeDef "Other" (JStr "./other").
Definition requestOtherDef : ScopedObjectContextDef :=
  mkScopedObjectContextDef (Some appDef) [otherDecl] [] [].
Definition requestOtherCtx : ScopedObjectContext :=
  mkScopedObjectContext 2 "request" "/r" requestOtherDef (Some appCtx).

(** A global registry whose [base] carries its declaration as given, with
    no dependency set, as in a definition built without analysis. *)
Definition globalBaseRaw : NamedObject :=
  mkNamedObject 0 baseDecl (JObj [("built", value baseDecl)]) "global".
Definition world0Raw : World :=
  mkWorld (<[0%nat := [globalBaseRaw]]> (<[1%nat := []]> (<[2%nat := []]> ∅))) 1.

(** A builder that always fails. *)
Definition failing_factory (_ : ObjectFactory) (_ : jvalue) (_ : ScopedObjectContext) : M jvalue :=
  raise (Error "factory failed").

Definition fileDecl : ProviderDef := mkProviderDef "file" (JStr "./file-provider").
Definition docDecl : NamedObjectDef :=
  mkNamedObjectDef "doc"
    (JObj [("_type", JStr "Number"); ("source", JStr "file:data.json");
           ("items", JArr [JObj [("_type", JStr "Number")]])]) None.
Definition badTagDecl : NamedObjectDef :=
  mkNamedObjectDef "bad" (JObj [("_type", JNum 5)]) None.

End Scenario.

(** * Properties *)

(** ** Lookups in the definition chain *)

Lemma first_hit_None {A B} (f : A -> option B) (l : list A) :
  first_hit f l = None <-> Forall (fun x => f x = None) l.
Proof.
  induction l as [|x l IH]; simpl.
  - split; auto.
  - destruct (f x) eqn:E; split; intros H.
    + discriminate.
    + inversion H; congruence.
    + constructor; [assumption | apply IH, H].
    + inversion H; subst. apply IH. assumption.
Qed.

Lemma getTypeDef_first_hit (d : ScopedObjectContextDef) (nm : string) (n : Z) :
  getTypeDef d (JStr nm) n = first_hit (fun d' => map_get (typeNameToDef d') nm) (reachableDefs d n).
Proof.
  revert d n. fix IH 1. intros [[p|] tds pds ods] n; simpl;
    destruct (map_get _ nm); try reflexivity;
    destruct (0 <? n); try reflexivity.
  apply IH.
Qed.

Lemma getProviderDef_first_hit (d : ScopedObjectContextDef) (nm : string) (n : Z) :
  getProviderDef d nm n = first_hit (fun d' => map_get (protocolNameToDef d') nm) (reachableDefs d n).
Proof.
  revert d n. fix IH 1. intros [[p|] tds pds ods] n; simpl;
    destruct (map_get _ nm); try reflexivity;
    destruct (0 <? n); try reflexivity.
  apply IH.
Qed.

Lemma getNamedObjectDef_first_hit (d : ScopedObjectContextDef) (nm : string) (n : Z) :
  getNamedObjectDef d nm n = first_hit (fun d' => map_get (objectNameToDef d') nm) (reachableDefs d n).
Proof.
  revert d n. fix IH 1. intros [[p|] tds pds ods] n; simpl;
    destruct (map_get _ nm); try reflexivity;
    destruct (0 <? n); try reflexivity.
  apply IH.
Qed.

(** C8. [getTypeDef], [getProviderDef] and [getNamedObjectDef] return the
    declaration mapped by the nearest definition among those reachable with
    the hop budget (the definition itself, then its parent with budget
    n - 1, ...), and not-found exactly when no reachable definition maps
    the name; the default budget is 32. *)
Theorem lookup_nearest_definition (d : ScopedObjectContextDef) (nm : string) (n : Z) :
  getTypeDef d (JStr nm) n = first_hit (fun d' => map_get (typeNameToDef d') nm) (reachableDefs d n) /\
  getProviderDef d nm n = first_hit (fun d' => map_get (protocolNameToDef d') nm) (reachableDefs d n) /\
  getNamedObjectDef d nm n = first_hit (fun d' => map_get (objectNameToDef d') nm) (reachableDefs d n) /\
  (getTypeDef d (JStr nm) n = None <->
     Forall (fun d' => map_get (typeNameToDef d') nm = None) (reachableDefs d n)) /\
  (getProviderDef d nm n = None <->
     Forall (fun d' => map_get (protocolNameToDef d') nm = None) (reachableDefs d n)) /\
  (getNamedObjectDef d nm n = None <->
     Forall (fun d' => map_get (objectNameToDef d') nm = None) (reachableDefs d n)) /\
  defaultMaxDepth = 32.
Proof.
  rewrite getTypeDef_first_hit, getProviderDef_first_hit, getNamedObjectDef_first_hit.
  repeat split; try reflexivity; try (apply first_hit_None); intros H; apply first_hit_None; exact H.
Qed.

(** ** [get] along the resolver chain *)

Section GetWalk.

Variable factory_create : ObjectFactory -> jvalue -> ScopedObjectContext -> M jvalue.
Variable provider_provide : ObjectProvider -> UriArg -> ScopedObjectContext -> M jvalue.

Lemma ancestors_cons (c : ScopedObjectContext) (a : ScopedObjectContext) (l : list ScopedObjectContext) :
  ancestors c = a :: l ->
  exists i s b d, c = mkScopedObjectContext i s b d (Some a) /\ ancestors a = l.
Proof.
  destruct c as [i s b d [p|]]; simpl; intros H; [|discriminate].
  injection H as -> ->. exists i, s, b, d. split; reflexivity.
Qed.

Lemma getFromAncestors_unfold (self : ScopedObjectContext) (n : string) (depth : Z)
  (p : ScopedObjectContext) (w : World) :
  getFromAncestors factory_create provider_provide self n depth p w =
    match registry_get (registry_of w p) n with
    | Some namedObject =>
        match needsUpdate self namedObject depth with
        | Ok true => rebuild factory_create provider_provide self namedObject w
        | Ok false => (Ok (Some namedObject), w)
        | Throw e => (Throw e, w)
        end
    | None =>
        match parent p with
        | Some pp => getFromAncestors factory_create provider_provide self n (depth + 1) pp w
        | None => (Ok None, w)
        end
    end.
Proof. destruct p as [i s b d [pp|]]; reflexivity. Qed.

(** The loop of [get] stops at the first ancestor whose registry holds the
    name, [depth] counting the hops from the requester. *)
Lemma getFromAncestors_first_hit (self : ScopedObjectContext) (n : string) (w : World)
  (owner : ScopedObjectContext) (o : NamedObject) (post : list ScopedObjectContext) :
  forall (pre : list ScopedObjectContext) (p : ScopedObjectContext) (depth : Z),
  p :: ancestors p = pre ++ owner :: post ->
  Forall (fun a => registry_get (registry_of w a) n = None) pre ->
  registry_get (registry_of w owner) n = Some o ->
  getFromAncestors factory_create provider_provide self n depth p w =
    match needsUpdate self o (depth + Z.of_nat (List.length pre)) with
    | Ok true => rebuild factory_create provider_provide self o w
    | Ok false => (Ok (Some o), w)
    | Throw e => (Throw e, w)
    end.
Proof.
  intros pre. induction pre as [|a pre IH]; intros p depth Hchain Hmiss Hhit.
  - simpl in Hchain. injection Hchain as -> _.
    rewrite getFromAncestors_unfold, Hhit, Z.add_0_r. reflexivity.
  - simpl in Hchain. injection Hchain as -> Hanc.
    inversion Hmiss as [|? ? Ha Hpre]; subst.
    destruct (ancestors a) as [|a' l] eqn:Ea; [destruct pre; discriminate|].
    destruct (ancestors_cons a a' l Ea) as (i & s & b & d & Ha_eq & Hanc').
    assert (Hp : parent a = Some a') by (rewrite Ha_eq; reflexivity).
    rewrite getFromAncestors_unfold, Ha, Hp.
    replace (depth + Z.of_nat (List.length (a :: pre))) with (depth + 1 + Z.of_nat (List.length pre))
      by (simpl List.length; lia).
    apply IH; [|assumption|assumption].
    rewrite Hanc'. exact Hanc.
Qed.

(** [get] at a requester that misses locally: the first ancestor hit, at
    [length pre + 1] hops, is returned as it is or rebuilt, as
    [needsUpdate] decides, or [get] throws what [needsUpdate] throws. *)
Lemma get_first_ancestor_hit (self : ScopedObjectContext) (n : string) (w : World)
  (pre : list ScopedObjectContext) (owner : ScopedObjectContext) (post : list ScopedObjectContext)
  (o : NamedObject) :
  registry_get (registry_of w self) n = None ->
  ancestors self = pre ++ owner :: post ->
  Forall (fun a => registry_get (registry_of w a) n = None) pre ->
  registry_get (registry_of w owner) n = Some o ->
  get factory_create provider_provide self n w =
    match needsUpdate self o (Z.of_nat (List.length pre) + 1) with
    | Ok true => rebuild factory_create provider_provide self o w
    | Ok false => (Ok (Some o), w)
    | Throw e => (Throw e, w)
    end.
Proof.
  intros Hlocal Hanc Hmiss Hhit.
  unfold get. rewrite Hlocal.
  destruct self as [i s b d [p|]]; simpl in Hanc.
  - simpl. rewrite (getFromAncestors_first_hit _ n w owner o post pre p 1); auto.
    rewrite Z.add_comm. reflexivity.
  - destruct pre; discriminate.
Qed.

End GetWalk.

(** ** The registries *)

Lemma registry_get_name (reg : Registry) (n : string) (o : NamedObject) :
  registry_get reg n = Some o -> name (no_def o) = n.
Proof.
  unfold registry_get. intros H. apply List.find_some in H as [_ H].
  apply String.eqb_eq in H. exact H.
Qed.

Lemma registry_get_insert (reg : Registry) (o : NamedObject) :
  registry_get (registry_insert reg o) (name (no_def o)) = Some o.
Proof.
  unfold registry_get. induction reg as [|o' reg IH]; simpl.
  - rewrite String.eqb_refl. reflexivity.
  - destruct (String.eqb (name (no_def o')) (name (no_def o))) eqn:E; simpl.
    + rewrite String.eqb_refl. reflexivity.
    + rewrite E. exact IH.
Qed.

(** ** When [get] rebuilds *)



Lemma length_nonzero {A} (l : list A) : negb (Nat.eqb (List.length l) 0) = true <-> l <> [].
Proof. destruct l; simpl; split; congruence. Qed.

(** [needsUpdate] on a declaration that has a dependency set: a boolean,
    the disjunction of the three blocks. *)
Lemma needsUpdate_some (self : ScopedObjectContext) (o : NamedObject) (d : Z)
  (deps : ObjectContextDependency) :
  dependencies (no_def o) = Some deps ->
  needsUpdate self o d =
    Ok (match parent self with
        | None => false
        | Some _ =>
            (negb (Nat.eqb (List.length (typeDefs (def self))) 0)
             && existsb (fun t => match getTypeDef (def self) t (d - 1) with
                                  | Some _ => true | None => false end)
                  (typeDependencies deps))
            || (negb (Nat.eqb (List.length (providerDefs (def self))) 0)
             && existsb (fun p => match getProviderDef (def self) p (d - 1) with
                                  | Some _ => true | None => false end)
                  (protocolDependencies deps))
            || (negb (Nat.eqb (List.length (namedObjectDefs (def self))) 0)
             && existsb (fun m => match getNamedObjectDef (def self) m (d - 1) with
                                  | Some _ => true | None => false end)
                  (objectDependencies deps))
        end).
Proof.
  intros H. unfold needsUpdate, readDeps. rewrite H.
  destruct (parent self); [|reflexivity]. cbv zeta.
  set (g1 := negb (Nat.eqb (List.length (typeDefs (def self))) 0)).
  set (g2 := negb (Nat.eqb (List.length (providerDefs (def self))) 0)).
  set (g3 := negb (Nat.eqb (List.length (namedObjectDefs (def self))) 0)).
  set (e1 := existsb _ (typeDependencies deps)).
  set (e2 := existsb _ (protocolDependencies deps)).
  set (e3 := existsb _ (objectDependencies deps)).
  destruct g1, g2, g3, e1, e2, e3; reflexivity.
Qed.

(** [needsUpdate] on a declaration without a dependency set: it throws a
    [TypeError] as soon as it enters one of the three blocks. *)
Lemma needsUpdate_none (self : ScopedObjectContext) (o : NamedObject) (d : Z) :
  dependencies (no_def o) = None ->
  needsUpdate self o d =
    match parent self with
    | None => Ok false
    | Some _ =>
        if negb (Nat.eqb (List.length (typeDefs (def self))) 0)
           || negb (Nat.eqb (List.length (providerDefs (def self))) 0)
           || negb (Nat.eqb (List.length (namedObjectDefs (def self))) 0)
        then Throw TypeError else Ok false
    end.
Proof.
  intros H. unfold needsUpdate, readDeps. rewrite H.
  destruct (parent self); [|reflexivity]. cbv zeta.
  set (g1 := negb (Nat.eqb (List.length (typeDefs (def self))) 0)).
  set (g2 := negb (Nat.eqb (List.length (providerDefs (def self))) 0)).
  set (g3 := negb (Nat.eqb (List.length (namedObjectDefs (def self))) 0)).
  destruct g1, g2, g3; reflexivity.
Qed.

(** The only error of [needsUpdate]: a [TypeError], for a declaration
    without a dependency set, at a requester that has a parent and a
    non-empty list of one of the three kinds. *)
Lemma needsUpdate_throw (self : ScopedObjectContext) (o : NamedObject) (d : Z) (e : exn) :
  needsUpdate self o d = Throw e ->
  e = TypeError /\ dependencies (no_def o) = None /\ parent self <> None /\
  (typeDefs (def self) <> [] \/ providerDefs (def self) <> [] \/ namedObjectDefs (def self) <> []).
Proof.
  destruct (dependencies (no_def o)) as [deps|] eqn:D.
  - rewrite (needsUpdate_some self o d deps D). discriminate.
  - rewrite (needsUpdate_none self o d D).
    destruct (parent self); [|discriminate].
    destruct (negb (Nat.eqb (List.length (typeDefs (def self))) 0)) eqn:E1;
      [|destruct (negb (Nat.eqb (List.length (providerDefs (def self))) 0)) eqn:E2;
        [|destruct (negb (Nat.eqb (List.length (namedObjectDefs (def self))) 0)) eqn:E3]];
      simpl; intros H; inversion H; subst;
      (split; [reflexivity|]); (split; [reflexivity|]); (split; [discriminate|]).
    + left. apply length_nonzero. exact E1.
    + right; left. apply length_nonzero. exact E2.
    + right; right. apply length_nonzero. exact E3.
Qed.




(** C9. When [get] misses locally and first finds the name at an ancestor
    whose object needs no update, it returns that very object (same
    identity) and leaves the state, every registry included, unchanged. *)
Theorem get_shares_ancestor_object
  (fc : ObjectFactory -> jvalue -> ScopedObjectContext -> M jvalue)
  (pp : ObjectProvider -> UriArg -> ScopedObjectContext -> M jvalue)
  (self : ScopedObjectContext) (n : string) (w : World)
  (pre : list ScopedObjectContext) (owner : ScopedObjectContext) (post : list ScopedObjectContext)
  (o : NamedObject) :
  registry_get (registry_of w self) n = None ->
  ancestors self = pre ++ owner :: post ->
  Forall (fun a => registry_get (registry_of w a) n = None) pre ->
  registry_get (registry_of w owner) n = Some o ->
  needsUpdate self o (Z.of_nat (List.length pre) + 1) = Ok false ->
  get fc pp self n w = (Ok (Some o), w).
Proof.
  intros Hlocal Hanc Hmiss Hhit Hno.
  rewrite (get_first_ancestor_hit fc pp self n w pre owner post o Hlocal Hanc Hmiss Hhit), Hno.
  reflexivity.
Qed.

(** C10. [needsUpdate] looks at a dependency kind only when the requester's
    own definition declares something of that kind: with no type, provider
    or named-object declaration of its own, it is false for every object
    and depth, and [get] returns the first ancestor object as it is,
    whatever the scopes in between override. *)
Theorem needsUpdate_requires_own_declarations
  (fc : ObjectFactory -> jvalue -> ScopedObjectContext -> M jvalue)
  (pp : ObjectProvider -> UriArg -> ScopedObjectContext -> M jvalue)
  (self : ScopedObjectContext) :
  typeDefs (def self) = [] ->
  providerDefs (def self) = [] ->
  namedObjectDefs (def self) = [] ->
  (forall (o : NamedObject) (depth : Z), needsUpdate self o depth = Ok false) /\
  (forall (n : string) (w : World) (pre : list ScopedObjectContext) (owner : ScopedObjectContext)
          (post : list ScopedObjectContext) (o : NamedObject),
     registry_get (registry_of w self) n = None ->
     ancestors self = pre ++ owner :: post ->
     Forall (fun a => registry_get (registry_of w a) n = None) pre ->
     registry_get (registry_of w owner) n = Some o ->
     get fc pp self n w = (Ok (Some o), w)).
Proof.
  intros Ht Hp Hn.
  assert (Hfalse : forall (o : NamedObject) (depth : Z), needsUpdate self o depth = Ok false).
  { intros o depth. unfold needsUpdate. rewrite Ht, Hp, Hn.
    destruct (parent self); reflexivity. }
  split; [exact Hfalse|].
  intros n w pre owner post o Hlocal Hanc Hmiss Hhit.
  rewrite (get_first_ancestor_hit fc pp self n w pre owner post o Hlocal Hanc Hmiss Hhit), Hfalse.
  reflexivity.
Qed.


(** ** The three-level scenario *)

Import Scenario.

(** C1 (code defect).  The application scope overrides the builder of
    ["Number"], a dependency of ["base"] declared at the global scope.  The
    request scope below it declares nothing, and its [get("base")] returns
    the global object, labelled ["global"], not a rebuilt object labelled
    ["request"].  A request scope that declares only an unrelated type
    ["Other"] does rebuild ["base"], with the label ["request"].  And once
    the application scope has called [get("base")], the plain request
    scope returns the application's object, labelled ["application"]. *)
Theorem get_below_override_not_rebuilt :
  getTypeDef appDef (JStr "Number") 0 = Some numberOverride /\
  dependencies (no_def globalBase) = Some (mkDependency [JStr "Number"] [] []) /\
  registry_get (registry_of world0 requestCtx) "base" = None /\
  get echo_factory echo_provider requestCtx "base" world0 = (Ok (Some globalBase), world0) /\
  no_scope globalBase = "global" /\
  no_scope globalBase <> scope requestCtx /\
  get echo_factory echo_provider requestOtherCtx "base" world0 =
    (Ok (Some (mkNamedObject 1 baseAnalyzed (JObj [("built", value baseAnalyzed)]) "request")),
     mkWorld (<[2%nat := [mkNamedObject 1 baseAnalyzed (JObj [("built", value baseAnalyzed)]) "request"]]>
                (namedObjects world0)) 2) /\
  scope requestOtherCtx = scope requestCtx /\
  get echo_factory echo_provider appCtx "base" world0 = (Ok (Some appBase), world1) /\
  get echo_factory echo_provider requestCtx "base" world1 = (Ok (Some appBase), world1) /\
  no_scope appBase = "application".
Proof.
  split; [vm_compute; reflexivity|].
  split; [vm_compute; reflexivity|].
  split; [vm_compute; reflexivity|].
  split; [vm_compute; reflexivity|].
  split; [reflexivity|].
  split; [vm_compute; discriminate|].
  split; [vm_compute; reflexivity|].
  split; [reflexivity|].
  split; [vm_compute; reflexivity|].
  split; [vm_compute; reflexivity|].
  reflexivity.
Qed.


Lemma get_shares_ancestor_object_witness :
  get echo_factory echo_provider requestCtx "base" world0 = (Ok (Some globalBase), world0).
Proof.
  apply (get_shares_ancestor_object echo_factory echo_provider requestCtx "base" world0
           [appCtx] globalCtx [] globalBase).
  - vm_compute. reflexivity.
  - vm_compute. reflexivity.
  - constructor; [vm_compute; reflexivity | constructor].
  - vm_compute. reflexivity.
  - vm_compute. reflexivity.
Defined.

Lemma needsUpdate_requires_own_declarations_witness :
  needsUpdate requestCtx globalBase 2 = Ok false /\
  get echo_factory echo_provider requestCtx "base" world0 = (Ok (Some globalBase), world0).
Proof.
  destruct (needsUpdate_requires_own_declarations echo_factory echo_provider requestCtx)
    as [Hn Hg]; [reflexivity | reflexivity | reflexivity |].
  split; [apply Hn|].
  apply (Hg "base" world0 [appCtx] globalCtx [] globalBase).
  - vm_compute. reflexivity.
  - vm_compute. reflexivity.
  - constructor; [vm_compute; reflexivity | constructor].
  - vm_compute. reflexivity.
Defined.

(** ** Selection failures in [create] *)







(** ** [forEach] *)

Definition objName (o : NamedObject) : string := name (no_def o).

(** The objects of a sequence whose name is neither in [vis] nor the name
    of an earlier object, in order. *)
Fixpoint dedupNames (vis : list string) (l : list NamedObject) : list NamedObject :=
  match l with
  | [] => []
  | o :: rest =>
      if existsb (String.eqb (objName o)) vis then dedupNames vis rest
      else o :: dedupNames (vis ++ [objName o]) rest
  end.

Lemma existsb_eqb_In (x : string) (l : list string) :
  existsb (String.eqb x) l = true <-> In x l.
Proof.
  rewrite existsb_exists. split.
  - intros (y & Hy & E). apply String.eqb_eq in E. subst. exact Hy.
  - intros H. exists x. split; [exact H | apply String.eqb_refl].
Qed.

Lemma fold_visitRegistry (l : list NamedObject) :
  forall (vis : list string) (out : list NamedObject),
  fold_left visitRegistry l (vis, out) =
    (vis ++ map objName (dedupNames vis l), out ++ dedupNames vis l).
Proof.
  induction l as [|o l IH]; intros vis out; cbn [fold_left dedupNames].
  - rewrite !app_nil_r. reflexivity.
  - unfold visitRegistry at 2. fold (objName o).
    destruct (existsb (String.eqb (objName o)) vis).
    + apply IH.
    + rewrite IH. cbn [map]. rewrite <- !app_assoc. reflexivity.
Qed.

Lemma dedupNames_app (l1 l2 : list NamedObject) :
  forall vis : list string,
  dedupNames vis (l1 ++ l2) =
    dedupNames vis l1 ++ dedupNames (vis ++ map objName (dedupNames vis l1)) l2.
Proof.
  induction l1 as [|o l1 IH]; intros vis; simpl.
  - rewrite app_nil_r. reflexivity.
  - destruct (existsb (String.eqb (objName o)) vis).
    + apply IH.
    + rewrite IH. simpl. rewrite <- app_assoc. reflexivity.
Qed.

Lemma forEachFrom_dedup (w : World) :
  forall (c : ScopedObjectContext) (vis : list string),
  forEachFrom w vis c = dedupNames vis (List.concat (map (registry_of w) (c :: ancestors c))).
Proof.
  fix IH 1. intros [i s b d [p|]] vis; simpl; rewrite fold_visitRegistry.
  - rewrite IH. simpl. symmetry. rewrite dedupNames_app. reflexivity.
  - rewrite !app_nil_r. reflexivity.
Qed.

Lemma dedupNames_fresh (l : list NamedObject) :
  forall vis : list string,
  List.NoDup (map objName (dedupNames vis l)) /\
  (forall x, In x (map objName (dedupNames vis l)) -> ~ In x vis).
Proof.
  induction l as [|o l IH]; intros vis; simpl.
  - split; [constructor | intros x []].
  - destruct (existsb (String.eqb (objName o)) vis) eqn:E; [apply IH|].
    destruct (IH (vis ++ [objName o])) as [Hnd Hout]. simpl. split.
    + constructor; [|exact Hnd].
      intros Hin. apply (Hout _ Hin). apply in_or_app. right. left. reflexivity.
    + intros x [<-|Hin].
      * intros Hv. apply existsb_eqb_In in Hv. congruence.
      * intros Hv. apply (Hout _ Hin). apply in_or_app. left. exact Hv.
Qed.

Lemma dedupNames_names (l : list NamedObject) :
  forall (vis : list string) (x : string),
  In x (map objName (dedupNames vis l)) <-> In x (map objName l) /\ ~ In x vis.
Proof.
  induction l as [|o l IH]; intros vis x; simpl.
  - tauto.
  - destruct (existsb (String.eqb (objName o)) vis) eqn:E.
    + rewrite IH. apply existsb_eqb_In in E.
      split; [tauto|]. intros [[<-|H] Hv]; [contradiction | tauto].
    + simpl. rewrite IH. rewrite in_app_iff. simpl.
      assert (~ In (objName o) vis) by (intros Hv; apply existsb_eqb_In in Hv; congruence).
      split.
      * intros [<-|[H1 H2]]; [tauto|]. split; [tauto|]. tauto.
      * intros [[<-|H1] H2]; [left; reflexivity|].
        destruct (String.eqb_spec (objName o) x) as [->|Hne]; [left; reflexivity|].
        right. split; [exact H1|]. intros [H3|[H3|[]]]; [tauto | congruence].
Qed.

Lemma dedupNames_first (l : list NamedObject) :
  forall (vis : list string) (o : NamedObject),
  In o (dedupNames vis l) ->
  List.find (fun o' => String.eqb (objName o') (objName o)) l = Some o.
Proof.
  induction l as [|o1 l IH]; intros vis o Hin; simpl in *; [contradiction|].
  destruct (existsb (String.eqb (objName o1)) vis) eqn:E.
  - assert (Hne : objName o1 <> objName o).
    { intros Heq. apply existsb_eqb_In in E. rewrite Heq in E.
      apply (proj2 (dedupNames_fresh l vis) (objName o)); [|exact E].
      apply in_map. exact Hin. }
    apply String.eqb_neq in Hne. rewrite Hne. apply (IH vis o Hin).
  - destruct Hin as [<-|Hin]; [rewrite String.eqb_refl; reflexivity|].
    assert (Hne : objName o1 <> objName o).
    { intros Heq. apply (proj2 (dedupNames_fresh l (vis ++ [objName o1])) (objName o)).
      - apply in_map. exact Hin.
      - apply in_or_app. right. left. exact Heq. }
    apply String.eqb_neq in Hne. rewrite Hne. apply (IH _ o Hin).
Qed.

Lemma find_app {A} (f : A -> bool) (l1 l2 : list A) :
  List.find f (l1 ++ l2) = match List.find f l1 with Some x => Some x | None => List.find f l2 end.
Proof. induction l1 as [|x l1 IH]; simpl; [reflexivity|]. destruct (f x); [reflexivity | exact IH]. Qed.

Lemma chainLookup_concat (w : World) (cs : list ScopedObjectContext) (n : string) :
  chainLookup w cs n = List.find (fun o => String.eqb (objName o) n) (List.concat (map (registry_of w) cs)).
Proof.
  unfold chainLookup. induction cs as [|c cs IH]; simpl; [reflexivity|].
  rewrite find_app. unfold registry_get, objName. destruct (List.find _ (registry_of w c)); [reflexivity|].
  exact IH.
Qed.

Lemma registry_get_some_iff (reg : Registry) (n : string) :
  registry_get reg n <> None <-> In n (map objName reg).
Proof.
  unfold registry_get. split.
  - intros H. destruct (List.find _ reg) as [o|] eqn:E; [|congruence].
    apply List.find_some in E as [Hin Heq]. apply String.eqb_eq in Heq.
    rewrite <- Heq. exact (in_map objName reg o Hin).
  - intros Hin E. apply in_map_iff in Hin as (o & Hn & Hin).
    apply (List.find_none _ _ E) in Hin. unfold objName in Hn. rewrite Hn, String.eqb_refl in Hin.
    discriminate.
Qed.

(** C7. [forEach] calls its callback on each name visible in the chain
    exactly once, with the object of the nearest scope holding that name,
    scope after scope from the requester up (the objects of each registry
    not already visited, in registry order). *)
Theorem forEach_visits_nearest_once (self : ScopedObjectContext) (w : World) :
  List.NoDup (map objName (forEach self w)) /\
  (forall n : string, In n (map objName (forEach self w)) <->
     exists c, In c (self :: ancestors self) /\ registry_get (registry_of w c) n <> None) /\
  (forall o : NamedObject, In o (forEach self w) ->
     chainLookup w (self :: ancestors self) (objName o) = Some o) /\
  forEach self w = dedupNames [] (List.concat (map (registry_of w) (self :: ancestors self))).
Proof.
  unfold forEach. rewrite forEachFrom_dedup.
  set (L := List.concat (map (registry_of w) (self :: ancestors self))).
  split; [apply (dedupNames_fresh L [])|].
  split; [|split; [|reflexivity]].
  - intros n. rewrite dedupNames_names. unfold L.
    rewrite concat_map, map_map, in_concat. split.
    + intros [(ns & Hns & Hn) _]. apply in_map_iff in Hns as (c & <- & Hc).
      exists c. split; [exact Hc|]. apply registry_get_some_iff. exact Hn.
    + intros (c & Hc & Hget). split; [|intros []].
      exists (map objName (registry_of w c)). split; [exact (in_map (fun c => map objName (registry_of w c)) _ c Hc)|].
      apply registry_get_some_iff. exact Hget.
  - intros o Hin. rewrite chainLookup_concat. apply (dedupNames_first L [] o Hin).
Qed.

Lemma forEach_scenario :
  map objName (forEach appCtx (snd (get echo_factory echo_provider appCtx "base" world0))) = ["base"] /\
  map no_scope (forEach appCtx (snd (get echo_factory echo_provider appCtx "base" world0))) = ["application"].
Proof. split; vm_compute; reflexivity. Qed.

(** ** [create] on [null] *)

(** C4 (code defect).  [typeof null === 'object'], so [create(null)] and
    [create([null])] reach [.hasOwnProperty('_type')] on [null] and throw a
    [TypeError] instead of returning the input. *)
Theorem create_null_raises
  (fc : ObjectFactory -> jvalue -> ScopedObjectContext -> M jvalue)
  (pp : ObjectProvider -> UriArg -> ScopedObjectContext -> M jvalue)
  (self : ScopedObjectContext) (w : World) :
  create fc pp self JNull w = (Throw TypeError, w) /\
  create fc pp self (JArr [JNull]) w = (Throw TypeError, w).
Proof. split; reflexivity. Qed.

(** The other inputs of C4 are returned unchanged, without touching the
    state. *)
Lemma create_passthrough
  (fc : ObjectFactory -> jvalue -> ScopedObjectContext -> M jvalue)
  (pp : ObjectProvider -> UriArg -> ScopedObjectContext -> M jvalue)
  (self : ScopedObjectContext) (w : World) :
  create fc pp self (JArr []) w = (Ok (JArr []), w) /\
  (forall (s : string) (rest : list jvalue), parseAll (JStr s :: rest) = None ->
     create fc pp self (JArr (JStr s :: rest)) w = (Ok (JArr (JStr s :: rest)), w)) /\
  (forall s : string, Uri_tryParse (JStr s) = None -> create fc pp self (JStr s) w = (Ok (JStr s), w)) /\
  create fc pp self JUndef w = (Ok JUndef, w) /\
  (forall b, create fc pp self (JBool b) w = (Ok (JBool b), w)) /\
  (forall n, create fc pp self (JNum n) w = (Ok (JNum n), w)) /\
  (forall fs, prop_get fs "hasOwnProperty" = None -> prop_get fs "_type" = None ->
     create fc pp self (JObj fs) w = (Ok (JObj fs), w)).
Proof.
  split; [reflexivity|]. split; [|split; [|split; [|split; [|split]]]].
  - intros s rest H. unfold create. simpl String.eqb. cbv iota. rewrite H. reflexivity.
  - intros s H. unfold create. cbv beta iota. rewrite H. reflexivity.
  - reflexivity.
  - reflexivity.
  - reflexivity.
  - intros fs Hh Ht. unfold create. simpl String.eqb. cbv iota.
    unfold createTagged, bind, lift, hasOwnType. rewrite Hh, Ht. reflexivity.
Qed.

(** ** The closure pass in general *)

Lemma resolveRound_all (tr : list PendingRecord) :
  forall (resolved : list (string * list string)) (rem done : list PendingRecord) (k : nat),
  exists resolved',
    resolveRound resolved tr rem done k = (resolved', rem, done ++ tr, (k + List.length tr)%nat).
Proof.
  induction tr as [|r tr IH]; intros resolved rem done k; simpl.
  - exists resolved. rewrite app_nil_r, Nat.add_0_r. reflexivity.
  - destruct (IH (map_set resolved (name (rec_def r)) (objectDependencies (recordDeps (rec_def r))))
                rem (done ++ [r]) (S k)) as [res' H].
    exists res'. rewrite H, <- app_assoc. simpl. rewrite Nat.add_succ_r. reflexivity.
Qed.

Lemma resolveLoop_all (fuel : nat) (resolved : list (string * list string)) (tr : list PendingRecord) :
  resolveLoop (S fuel) resolved tr [] = Ok tr.
Proof.
  destruct tr as [|r tr]; [reflexivity|].
  cbn [resolveLoop]. destruct (resolveRound_all (r :: tr) resolved [] [] 0) as [res' H].
  rewrite H. simpl. destruct fuel; reflexivity.
Qed.

Lemma initClosure_indices (defs : list NamedObjectDef) :
  forall (pre : list NamedObjectDef) (res : list (string * list string)) (tr : list PendingRecord),
  Forall (fun d => dependencies d <> None) defs ->
  Forall (fun r => pre !! rec_index r = Some (rec_def r)) tr ->
  exists res' tr' k,
    fold_left initStep defs (Ok (res, tr, List.length pre)) = Ok (res', tr', k) /\
    Forall (fun r => (pre ++ defs) !! rec_index r = Some (rec_def r)) tr'.
Proof.
  induction defs as [|d defs IH]; intros pre res tr Hdeps Htr; cbn [fold_left].
  - exists res, tr, (List.length pre). rewrite app_nil_r. split; [reflexivity | exact Htr].
  - inversion Hdeps as [|? ? Hd Hdefs]; subst.
    replace (pre ++ d :: defs) with ((pre ++ [d]) ++ defs) by (rewrite <- app_assoc; reflexivity).
    assert (Hold : Forall (fun r => (pre ++ [d]) !! rec_index r = Some (rec_def r)) tr).
    { eapply Forall_impl; [exact Htr|]. intros r Hr. apply lookup_app_l_Some. exact Hr. }
    assert (Hlen : S (List.length pre) = List.length (pre ++ [d])) by (rewrite length_app; simpl; lia).
    destruct (dependencies d) as [deps|] eqn:Ed; [|contradiction].
    destruct (objectDependencies deps) as [|x xs] eqn:Eo.
    + assert (Hs : initStep (Ok (res, tr, List.length pre)) d
                   = Ok (map_set res (name d) [], tr, List.length (pre ++ [d])))
        by (unfold initStep, readDeps; rewrite Ed; cbv zeta; rewrite Eo, Hlen; reflexivity).
      rewrite Hs. apply IH; assumption.
    + assert (Hs : initStep (Ok (res, tr, List.length pre)) d
                   = Ok (res, tr ++ [mkPending (x :: xs) d (List.length pre)], List.length (pre ++ [d])))
        by (unfold initStep, readDeps; rewrite Ed; cbv zeta; rewrite Eo, Hlen; reflexivity).
      rewrite Hs. apply IH; [assumption|]. apply Forall_app. split; [exact Hold|].
      constructor; [|constructor]. simpl.
      rewrite list_lookup_middle; reflexivity.
Qed.

Lemma writeBack_same (defs : list NamedObjectDef) (done : list PendingRecord) :
  Forall (fun r => defs !! rec_index r = Some (rec_def r)) done ->
  writeBack defs done = defs.
Proof.
  intros Hdone. unfold writeBack. apply list_eq. intros i.
  rewrite list_lookup_imap. destruct (defs !! i) as [x|] eqn:E; simpl; [|reflexivity].
  destruct (List.find _ done) as [r|] eqn:F; [|reflexivity].
  apply List.find_some in F as [Hin Hi]. apply Nat.eqb_eq in Hi.
  rewrite List.Forall_forall in Hdone. specialize (Hdone r Hin). rewrite Hi, E in Hdone.
  congruence.
Qed.

(** On declarations that all have a dependency set, the closure pass
    never raises and leaves every declaration, its object-dependency set
    included, as it was. *)
Lemma secondPass_identity (defs : list NamedObjectDef) :
  Forall (fun d => dependencies d <> None) defs -> secondPass defs = Ok defs.
Proof.
  intros Hdeps. unfold secondPass, initClosure.
  destruct (initClosure_indices defs [] [] [] Hdeps (List.Forall_nil _)) as (res' & tr' & k & Hf & Hidx).
  simpl List.length in Hf. rewrite Hf.
  rewrite resolveLoop_all. f_equal. apply writeBack_same. exact Hidx.
Qed.

(** ** The first pass records no object dependency *)

Lemma analyzeDirectDependencies_objects :
  forall (v : jvalue) (dep dep' : ObjectContextDependency),
  analyzeDirectDependencies dep v = Ok dep' -> objectDependencies dep' = objectDependencies dep.
Proof.
  fix IH 1. intros v dep dep' H. destruct v as [| |b|z|s|l|fs]; simpl in H.
  - inversion H; reflexivity.
  - discriminate.
  - inversion H; reflexivity.
  - inversion H; reflexivity.
  - revert H. repeat case_match; intros Hs; inversion Hs; reflexivity.
  - revert l dep H. fix IHl 1. intros [|x l] dep H; simpl in H.
    + inversion H; reflexivity.
    + destruct (analyzeDirectDependencies dep x) as [d1|e] eqn:E; [|discriminate].
      rewrite (IHl l d1 H). exact (IH x dep d1 E).
  - assert (H0 : forall dep0, objectDependencies dep0 = objectDependencies dep ->
              (fix props (dep : ObjectContextDependency) (fs : list (string * jvalue)) :=
                 match fs with
                 | [] => Ok dep
                 | (_, x) :: rest =>
                     match analyzeDirectDependencies dep x with
                     | Ok dep' => props dep' rest
                     | Throw e => Throw e
                     end
                 end) dep0 fs = Ok dep' -> objectDependencies dep' = objectDependencies dep).
    { clear H. revert fs. fix IHf 1. intros [|[k x] fs] dep0 Hd0 Hp; simpl in Hp.
      - inversion Hp; subst; exact Hd0.
      - destruct (analyzeDirectDependencies dep0 x) as [d1|e] eqn:E; [|discriminate].
        apply (IHf fs d1); [|exact Hp].
        rewrite (IH x dep0 d1 E). exact Hd0. }
    eapply H0; [|exact H].
    destruct (prop_get fs "_type") as [t|]; [|reflexivity].
    destruct (is_nullish t); reflexivity.
Qed.

(** Every declaration the first pass returns has a dependency set, and its
    object-dependency set is empty: [analyzeDirectDependencies] records
    types and protocols only. *)
Lemma firstPass_objects (self : ScopedObjectContextDef) :
  forall (defs defs' : list NamedObjectDef),
  firstPass self defs = Ok defs' ->
  Forall (fun d => exists deps, dependencies d = Some deps /\ objectDependencies deps = []) defs'.
Proof.
  induction defs as [|d defs IH]; intros defs' H; simpl in H.
  - inversion H; constructor.
  - destruct (analyzeDirectDependencies emptyDependency (value d)) as [deps|e] eqn:E; [|discriminate].
    destruct (checkTypeDeps self (name d) (typeDependencies deps)); [|discriminate].
    destruct (checkProtocolDeps self (name d) (protocolDependencies deps)); [|discriminate].
    destruct (firstPass self defs) as [rest'|e] eqn:F; [|discriminate].
    inversion H; subst. constructor.
    + exists deps. split; [reflexivity|]. exact (analyzeDirectDependencies_objects _ _ _ E).
    + exact (IH rest' eq_refl).
Qed.

(** Construction with dependency analysis raises only what the first pass
    raises: on the declarations the first pass returns, each with a
    dependency set, the closure pass never fails. *)
Lemma analyzeNamedObjectDependencies_firstPass (self : ScopedObjectContextDef) :
  analyzeNamedObjectDependencies self = firstPass self (namedObjectDefs self).
Proof.
  unfold analyzeNamedObjectDependencies.
  destruct (firstPass self (namedObjectDefs self)) as [defs'|e] eqn:F; [|reflexivity].
  apply secondPass_identity. eapply Forall_impl; [exact (firstPass_objects self _ _ F)|].
  intros d [deps [Hd _]]. congruence.
Qed.

(** ** Dependency analysis on concrete declarations *)

Definition declWithNull : NamedObjectDef :=
  mkNamedObjectDef "a" (JObj [("_type", JStr "Unknown"); ("x", JNull)]) None.
Definition declWithoutNull : NamedObjectDef :=
  mkNamedObjectDef "a" (JObj [("_type", JStr "Unknown"); ("x", JNum 0)]) None.

(** C6 (code defect).  A [null] anywhere in a declared value makes
    [analyzeDirectDependencies] read [null['_type']]: construction fails
    with a [TypeError] before the type check, not with the
    unrecognized-type error it gives for the same value without the
    [null]. *)
Theorem analysis_null_field_raises_typeerror :
  new_ScopedObjectContextDef None [] [] [declWithNull] true = Throw TypeError /\
  new_ScopedObjectContextDef None [] [] [declWithoutNull] true =
    Throw (Error "Unrecoginized type 'Unknown' found in named object 'a'.").
Proof. split; vm_compute; reflexivity. Qed.

Definition depOn (n : string) (deps : list string) : NamedObjectDef :=
  mkNamedObjectDef n (JObj [("_type", JStr "Number")]) (Some (mkDependency [JStr "Number"] [] deps)).

(** C2 (code defect).  The closure pass over two declarations whose object
    dependencies form a cycle (A on B, B on A) raises nothing: it reads the
    pending names with [Object.keys] of a [Set], which is empty, so every
    record counts as resolved in the first round.  Construction with the
    same declarations and analysis enabled succeeds: the first pass replaces
    each declared set by the direct dependencies of the value, and those
    never name an object. *)
Theorem closure_pass_accepts_cycle :
  secondPass [depOn "A" ["B"]; depOn "B" ["A"]] = Ok [depOn "A" ["B"]; depOn "B" ["A"]] /\
  exists d', new_ScopedObjectContextDef None [numberDecl] [] [depOn "A" ["B"]; depOn "B" ["A"]] true = Ok d'.
Proof. split; [vm_compute; reflexivity | eexists; vm_compute; reflexivity]. Qed.

(** C3 (code defect).  Over the chain A on B, B on C, C on D, the closure
    pass leaves every set as it was: A's set is {B}, without C and D.
    Construction of the chain with analysis enabled succeeds and leaves
    every object-dependency set empty. *)
Theorem closure_pass_no_transitive_closure :
  secondPass [depOn "A" ["B"]; depOn "B" ["C"]; depOn "C" ["D"]; depOn "D" []] =
    Ok [depOn "A" ["B"]; depOn "B" ["C"]; depOn "C" ["D"]; depOn "D" []] /\
  (exists deps, dependencies (depOn "A" ["B"]) = Some deps /\ ~ In "C" (objectDependencies deps)) /\
  exists d',
    new_ScopedObjectContextDef None [numberDecl] []
      [depOn "A" ["B"]; depOn "B" ["C"]; depOn "C" ["D"]; depOn "D" []] true = Ok d' /\
    Forall (fun d => exists deps, dependencies d = Some deps /\ objectDependencies deps = [])
      (namedObjectDefs d').
Proof.
  split; [vm_compute; reflexivity|].
  split; [eexists; split; [reflexivity | simpl; intros [H|[]]; discriminate]|].
  eexists. split; [vm_compute; reflexivity|]. simpl.
  repeat (constructor; [eexists; split; reflexivity|]). constructor.
Qed.

Lemma firstPass_objects_witness :
  exists defs',
    firstPass (mkScopedObjectContextDef None [numberDecl] [] [depOn "A" ["B"]]) [depOn "A" ["B"]] = Ok defs' /\
    Forall (fun d => exists deps, dependencies d = Some deps /\ objectDependencies deps = []) defs'.
Proof.
  eexists. split; [vm_compute; reflexivity|].
  apply (firstPass_objects (mkScopedObjectContextDef None [numberDecl] [] [depOn "A" ["B"]]) [depOn "A" ["B"]]).
  vm_compute. reflexivity.
Defined.

(** ** Lookups in one scope definition *)

Lemma map_get_map_set {V} (m : list (string * V)) (k : string) (v : V) (k' : string) :
  map_get (map_set m k v) k' = if String.eqb k' k then Some v else map_get m k'.
Proof.
  induction m as [|[k0 v0] m IH]; simpl; [destruct (String.eqb k' k); reflexivity|].
  destruct (String.eqb_spec k k0) as [->|Hne]; simpl.
  - destruct (String.eqb k' k0); reflexivity.
  - rewrite IH. destruct (String.eqb_spec k' k0); destruct (String.eqb_spec k' k); congruence.
Qed.

Lemma map_get_fold {A} (key : A -> string) (l : list A) :
  forall (m : list (string * A)) (k : string),
  map_get (fold_left (fun m a => map_set m (key a) a) l m) k =
  match List.find (fun a => String.eqb (key a) k) (rev l) with Some a => Some a | None => map_get m k end.
Proof.
  induction l as [|a l IH]; intros m k; simpl; [reflexivity|].
  rewrite IH, find_app. simpl. rewrite map_get_map_set, (String.eqb_sym k (key a)).
  destruct (List.find _ (rev l)); [reflexivity|]. destruct (String.eqb (key a) k); reflexivity.
Qed.

Lemma map_get_fold_nil {A} (key : A -> string) (l : list A) (k : string) :
  map_get (fold_left (fun m a => map_set m (key a) a) l []) k =
  List.find (fun a => String.eqb (key a) k) (rev l).
Proof. rewrite map_get_fold. destruct (List.find _ _); reflexivity. Qed.

Lemma getTypeDef_local (d : ScopedObjectContextDef) (nm : string) (n : Z) :
  getTypeDef d (JStr nm) n =
    match List.find (fun td => String.eqb (typeName td) nm) (rev (typeDefs d)) with
    | Some td => Some td
    | None => if 0 <? n then match def_parent d with Some p => getTypeDef p (JStr nm) (n - 1) | None => None end else None
    end.
Proof.
  rewrite <- (map_get_fold_nil typeName).
  destruct d as [[p|] tds pds ods]; reflexivity.
Qed.

Lemma getProviderDef_local (d : ScopedObjectContextDef) (nm : string) (n : Z) :
  getProviderDef d nm n =
    match List.find (fun pd => String.eqb (providerProtocol pd) nm) (rev (providerDefs d)) with
    | Some pd => Some pd
    | None => if 0 <? n then match def_parent d with Some p => getProviderDef p nm (n - 1) | None => None end else None
    end.
Proof.
  rewrite <- (map_get_fold_nil providerProtocol).
  destruct d as [[p|] tds pds ods]; reflexivity.
Qed.

Lemma getNamedObjectDef_local (d : ScopedObjectContextDef) (nm : string) (n : Z) :
  getNamedObjectDef d nm n =
    match List.find (fun od => String.eqb (name od) nm) (rev (namedObjectDefs d)) with
    | Some od => Some od
    | None => if 0 <? n then match def_parent d with Some p => getNamedObjectDef p nm (n - 1) | None => None end else None
    end.
Proof.
  rewrite <- (map_get_fold_nil name).
  destruct d as [[p|] tds pds ods]; reflexivity.
Qed.

Lemma first_hit_Some {A B} (f : A -> option B) (l : list A) (b : B) :
  first_hit f l = Some b -> exists x, In x l /\ f x = Some b.
Proof.
  induction l as [|x l IH]; simpl; [discriminate|].
  destruct (f x) eqn:E.
  - intros H. injection H as <-. exists x. auto.
  - intros H. destruct (IH H) as (y & Hy & Hf). exists y. auto.
Qed.

Lemma find_rev_Some {A} (f : A -> bool) (l : list A) (a : A) :
  List.find f (rev l) = Some a -> In a l /\ f a = true.
Proof.
  intros H. apply List.find_some in H as [Hin Hf]. split; [apply in_rev; exact Hin | exact Hf].
Qed.

(** A scope definition that declares a name several times resolves it to
    its last declaration: [getTypeDef], [getProviderDef] and
    [getNamedObjectDef] return the last declaration of the name in the
    definition's own list, whatever the hop budget, and with budget 0 they
    return exactly that (not-found when the own list has none). *)
Theorem scope_lookup_last_declaration (d : ScopedObjectContextDef) (nm : string) (n : Z) :
  (forall td, List.find (fun td => String.eqb (typeName td) nm) (rev (typeDefs d)) = Some td ->
     getTypeDef d (JStr nm) n = Some td) /\
  (forall pd, List.find (fun pd => String.eqb (providerProtocol pd) nm) (rev (providerDefs d)) = Some pd ->
     getProviderDef d nm n = Some pd) /\
  (forall od, List.find (fun od => String.eqb (name od) nm) (rev (namedObjectDefs d)) = Some od ->
     getNamedObjectDef d nm n = Some od) /\
  getTypeDef d (JStr nm) 0 = List.find (fun td => String.eqb (typeName td) nm) (rev (typeDefs d)) /\
  getProviderDef d nm 0 = List.find (fun pd => String.eqb (providerProtocol pd) nm) (rev (providerDefs d)) /\
  getNamedObjectDef d nm 0 = List.find (fun od => String.eqb (name od) nm) (rev (namedObjectDefs d)).
Proof.
  rewrite !getTypeDef_local, !getProviderDef_local, !getNamedObjectDef_local.
  repeat split; intros; repeat match goal with H : _ = Some _ |- _ => rewrite H; clear H end;
    try reflexivity; destruct (List.find _ _); reflexivity.
Qed.

(** What a lookup returns is a declaration of the requested name, taken
    from the list of one of the definitions reachable with the hop
    budget. *)
Theorem lookup_returns_reachable_declaration (d : ScopedObjectContextDef) (nm : string) (n : Z) :
  (forall td, getTypeDef d (JStr nm) n = Some td ->
     typeName td = nm /\ exists d', In d' (reachableDefs d n) /\ In td (typeDefs d')) /\
  (forall pd, getProviderDef d nm n = Some pd ->
     providerProtocol pd = nm /\ exists d', In d' (reachableDefs d n) /\ In pd (providerDefs d')) /\
  (forall od, getNamedObjectDef d nm n = Some od ->
     name od = nm /\ exists d', In d' (reachableDefs d n) /\ In od (namedObjectDefs d')).
Proof.
  rewrite getTypeDef_first_hit, getProviderDef_first_hit, getNamedObjectDef_first_hit.
  split; [|split]; intros x H; apply first_hit_Some in H as (d' & Hd' & Hx).
  - unfold typeNameToDef in Hx. rewrite map_get_fold_nil in Hx.
    apply find_rev_Some in Hx as [Hin Hn]. apply String.eqb_eq in Hn. eauto.
  - unfold protocolNameToDef in Hx. rewrite map_get_fold_nil in Hx.
    apply find_rev_Some in Hx as [Hin Hn]. apply String.eqb_eq in Hn. eauto.
  - unfold objectNameToDef in Hx. rewrite map_get_fold_nil in Hx.
    apply find_rev_Some in Hx as [Hin Hn]. apply String.eqb_eq in Hn. eauto.
Qed.

(** ** [get]: outcomes *)

Section GetOutcomes.

Variable factory_create : ObjectFactory -> jvalue -> ScopedObjectContext -> M jvalue.
Variable provider_provide : ObjectProvider -> UriArg -> ScopedObjectContext -> M jvalue.

Lemma rebuild_inv (self : ScopedObjectContext) (o : NamedObject) (w w' : World) (r : result (option NamedObject)) :
  rebuild factory_create provider_provide self o w = (r, w') ->
  (exists e, r = Throw e /\ create factory_create provider_provide self (value (no_def o)) w = (Throw e, w')) \/
  (exists v w1, create factory_create provider_provide self (value (no_def o)) w = (Ok v, w1) /\
     r = Ok (Some (mkNamedObject (nextObjectId w1) (no_def o) v (scope self))) /\
     w' = mkWorld (<[ctx_id self := registry_insert (registry_of w1 self)
                                      (mkNamedObject (nextObjectId w1) (no_def o) v (scope self))]>
                     (namedObjects w1))
                  (S (nextObjectId w1))).
Proof.
  unfold rebuild, bind.
  destruct (create factory_create provider_provide self (value (no_def o)) w) as [[v|e] w1] eqn:E;
    intros H.
  - right. exists v, w1. split; [reflexivity|]. inversion H. split; reflexivity.
  - left. exists e. inversion H; subst. split; reflexivity.
Qed.

(** How a hit ends: the object as it is, a rebuild, or the [TypeError] of
    [needsUpdate]. *)
Definition hitOutcome (self : ScopedObjectContext) (o : NamedObject) (w w' : World)
  (r : result (option NamedObject)) : Prop :=
  (r = Ok (Some o) /\ w' = w) \/
  rebuild factory_create provider_provide self o w = (r, w') \/
  (r = Throw TypeError /\ w' = w /\ dependencies (no_def o) = None /\
   (typeDefs (def self) <> [] \/ providerDefs (def self) <> [] \/ namedObjectDefs (def self) <> [])).

Lemma getFromAncestors_inv (self : ScopedObjectContext) (n : string) :
  forall (p : ScopedObjectContext) (depth : Z) (w w' : World) (r : result (option NamedObject)),
  getFromAncestors factory_create provider_provide self n depth p w = (r, w') ->
  (r = Ok None /\ w' = w /\ Forall (fun a => registry_get (registry_of w a) n = None) (p :: ancestors p)) \/
  (exists a o, In a (p :: ancestors p) /\ registry_get (registry_of w a) n = Some o /\
     hitOutcome self o w w' r).
Proof.
  fix IH 1. intros p depth w w' r H.
  rewrite getFromAncestors_unfold in H.
  destruct (registry_get (registry_of w p) n) as [o|] eqn:Ep.
  - right. exists p, o. split; [left; reflexivity|]. split; [exact Ep|]. unfold hitOutcome.
    destruct (needsUpdate self o depth) as [[|]|e] eqn:En.
    + right; left. exact H.
    + left. inversion H. split; reflexivity.
    + right; right. apply needsUpdate_throw in En as (-> & Hd & _ & Hk).
      inversion H. auto.
  - destruct p as [i s b d [q|]]; simpl in H.
    + destruct (IH q (depth + 1) w w' r H) as [(Hr & Hw & Hall)|(a & o & Ha & Ho & Hcase)].
      * left. split; [exact Hr|]. split; [exact Hw|]. constructor; [exact Ep|exact Hall].
      * right. exists a, o. split; [right; exact Ha|]. split; [exact Ho | exact Hcase].
    + inversion H; subst. left. split; [reflexivity|]. split; [reflexivity|].
      constructor; [exact Ep | constructor].
Qed.

Lemma getFromAncestors_none (self : ScopedObjectContext) (n : string) :
  forall (p : ScopedObjectContext) (depth : Z) (w : World),
  Forall (fun a => registry_get (registry_of w a) n = None) (p :: ancestors p) ->
  getFromAncestors factory_create provider_provide self n depth p w = (Ok None, w).
Proof.
  fix IH 1. intros p depth w Hall.
  rewrite getFromAncestors_unfold. inversion Hall as [|? ? Hp Hrest]; subst. rewrite Hp.
  destruct p as [i s b d [q|]]; simpl; [|reflexivity].
  apply IH. exact Hrest.
Qed.

(** The result of [get] and its state, sorted by how [get] ended. *)
Lemma get_inv (self : ScopedObjectContext) (n : string) (w w' : World) (r : result (option NamedObject)) :
  get factory_create provider_provide self n w = (r, w') ->
  (r = Ok None /\ w' = w /\ Forall (fun a => registry_get (registry_of w a) n = None) (self :: ancestors self)) \/
  (exists a o, In a (self :: ancestors self) /\ registry_get (registry_of w a) n = Some o /\
     hitOutcome self o w w' r).
Proof.
  unfold get. destruct (registry_get (registry_of w self) n) as [o|] eqn:El; intros H.
  - right. exists self, o. split; [left; reflexivity|]. split; [exact El|]. left.
    inversion H. split; reflexivity.
  - destruct self as [i s b d [p|]]; simpl in H.
    + destruct (getFromAncestors_inv _ n p 1 w w' r H) as [(Hr & Hw & Hall)|(a & o & Ha & Ho & Hcase)].
      * left. split; [exact Hr|]. split; [exact Hw|]. constructor; [exact El | exact Hall].
      * right. exists a, o. split; [right; exact Ha|]. split; [exact Ho | exact Hcase].
    + inversion H; subst. left. split; [reflexivity|]. split; [reflexivity|].
      constructor; [exact El | constructor].
Qed.

Lemma registry_of_insert_self (self : ScopedObjectContext) (w1 : World) (o : NamedObject) (k : nat) :
  registry_of (mkWorld (<[ctx_id self := registry_insert (registry_of w1 self) o]> (namedObjects w1)) k) self =
  registry_insert (registry_of w1 self) o.
Proof. unfold registry_of at 1. simpl. rewrite lookup_insert_eq. reflexivity. Qed.

End GetOutcomes.

(** [get] returns [null] exactly when no registry from the requester to
    the root holds the name, and then changes nothing; when the
    requester's own registry holds the name, [get] returns that object and
    changes nothing. *)
Theorem get_null_iff_absent
  (fc : ObjectFactory -> jvalue -> ScopedObjectContext -> M jvalue)
  (pp : ObjectProvider -> UriArg -> ScopedObjectContext -> M jvalue)
  (self : ScopedObjectContext) (n : string) (w : World) :
  ((exists w', get fc pp self n w = (Ok None, w')) <->
     Forall (fun a => registry_get (registry_of w a) n = None) (self :: ancestors self)) /\
  (Forall (fun a => registry_get (registry_of w a) n = None) (self :: ancestors self) ->
     get fc pp self n w = (Ok None, w)) /\
  (forall o, registry_get (registry_of w self) n = Some o -> get fc pp self n w = (Ok (Some o), w)).
Proof.
  assert (Hnone : Forall (fun a => registry_get (registry_of w a) n = None) (self :: ancestors self) ->
                  get fc pp self n w = (Ok None, w)).
  { intros Hall. unfold get. inversion Hall as [|? ? Hs Hrest]; subst. rewrite Hs.
    destruct self as [i s b d [p|]]; simpl; [|reflexivity].
    apply getFromAncestors_none. exact Hrest. }
  split; [split|split].
  - intros [w' H].
    destruct (get_inv fc pp self n w w' _ H)
      as [(_ & _ & Hall)|(a & o & Ha & Ho & [(Hr & _)|[Hreb|(Hr & _)]])].
    + exact Hall.
    + discriminate.
    + destruct (rebuild_inv fc pp self o w w' _ Hreb) as [(e & He & _)|(v & w1 & _ & Hr & _)]; discriminate.
    + discriminate.
  - intros Hall. exists w. apply Hnone. exact Hall.
  - exact Hnone.
  - intros o Ho. unfold get. rewrite Ho. reflexivity.
Qed.

(** Every object [get(name)] returns carries the declaration of [name]. *)
Theorem get_returns_named
  (fc : ObjectFactory -> jvalue -> ScopedObjectContext -> M jvalue)
  (pp : ObjectProvider -> UriArg -> ScopedObjectContext -> M jvalue)
  (self : ScopedObjectContext) (n : string) (w w' : World) (o : NamedObject) :
  get fc pp self n w = (Ok (Some o), w') -> name (no_def o) = n.
Proof.
  intros H.
  destruct (get_inv fc pp self n w w' _ H)
    as [(Hr & _)|(a & o0 & _ & Ho0 & [(Hr & _)|[Hreb|(Hr & _)]])].
  - discriminate.
  - injection Hr as Hoeq; subst o. exact (registry_get_name _ _ _ Ho0).
  - destruct (rebuild_inv fc pp self o0 w w' _ Hreb) as [(e & He & _)|(v & w1 & _ & Hr & _)]; [discriminate|].
    injection Hr as Hoeq; subst o. simpl. exact (registry_get_name _ _ _ Ho0).
  - discriminate.
Qed.

(** [get] is idempotent: right after a call that returned an object, a
    second call with the same name returns the same object (same identity)
    and changes nothing, whether the first call shared an object or
    rebuilt one. *)
Theorem get_idempotent
  (fc : ObjectFactory -> jvalue -> ScopedObjectContext -> M jvalue)
  (pp : ObjectProvider -> UriArg -> ScopedObjectContext -> M jvalue)
  (self : ScopedObjectContext) (n : string) (w w' : World) (o : NamedObject) :
  get fc pp self n w = (Ok (Some o), w') -> get fc pp self n w' = (Ok (Some o), w').
Proof.
  intros H.
  destruct (get_inv fc pp self n w w' _ H)
    as [(Hr & _)|(a & o0 & _ & Ho0 & [(Hr & Hw)|[Hreb|(Hr & _)]])].
  - discriminate.
  - subst w'. exact H.
  - destruct (rebuild_inv fc pp self o0 w w' _ Hreb) as [(e & He & _)|(v & w1 & _ & Hr & Hw)]; [discriminate|].
    injection Hr as Hoeq; subst o. unfold get. rewrite Hw, registry_of_insert_self.
    rewrite <- (registry_get_name _ _ _ Ho0).
    change (name (no_def o0)) with (name (no_def (mkNamedObject (nextObjectId w1) (no_def o0) v (scope self)))).
    rewrite registry_get_insert. reflexivity.
  - discriminate.
Qed.

(** The errors of [get]: a failing [get(name)] found the name at a
    resolver of the chain, and either [create] on that declaration's raw
    value at the requester raises the same error and leaves the same state
    (a rebuild that failed), or the error is the [TypeError] of
    [needsUpdate] reading the dependency set of a declaration that has
    none, at a requester with a non-empty list of one of the three kinds,
    and the state is unchanged. *)
Theorem get_raises_only_from_create
  (fc : ObjectFactory -> jvalue -> ScopedObjectContext -> M jvalue)
  (pp : ObjectProvider -> UriArg -> ScopedObjectContext -> M jvalue)
  (self : ScopedObjectContext) (n : string) (w w' : World) (e : exn) :
  get fc pp self n w = (Throw e, w') ->
  exists a o, In a (self :: ancestors self) /\ registry_get (registry_of w a) n = Some o /\
    (create fc pp self (value (no_def o)) w = (Throw e, w') \/
     (e = TypeError /\ w' = w /\ dependencies (no_def o) = None /\
      (typeDefs (def self) <> [] \/ providerDefs (def self) <> [] \/ namedObjectDefs (def self) <> []))).
Proof.
  intros H.
  destruct (get_inv fc pp self n w w' _ H)
    as [(Hr & _)|(a & o0 & Ha & Ho0 & [(Hr & _)|[Hreb|(Hr & Hw & Hd & Hk)]])].
  - discriminate.
  - discriminate.
  - destruct (rebuild_inv fc pp self o0 w w' _ Hreb) as [(e' & He & Hc)|(v & w1 & _ & Hr & _)]; [|discriminate].
    injection He as <-. exists a, o0. auto.
  - injection Hr as He. exists a, o0.
    split; [exact Ha|]. split; [exact Ho0|]. right.
    split; [exact He|]. split; [exact Hw|]. split; [exact Hd | exact Hk].
Qed.

(** ** [create]: dispatch *)

Lemma ancestors_chain_cons (self a : ScopedObjectContext) (l : list ScopedObjectContext) :
  self :: ancestors self = a :: l -> a = self /\ ancestors self = l.
Proof. intros H. injection H as -> ->. split; reflexivity. Qed.

Lemma factoryFrom_nearest (t : jvalue) (c : ScopedObjectContext) (post : list ScopedObjectContext) :
  forall (pre : list ScopedObjectContext) (self : ScopedObjectContext),
  self :: ancestors self = pre ++ c :: post ->
  Forall (fun a => factory_supports (objectFactory a) t = false) pre ->
  factory_supports (objectFactory c) t = true ->
  factoryFrom self t = Some (objectFactory c).
Proof.
  induction pre as [|a pre IH]; intros self Hchain Hpre Hc.
  - injection Hchain as -> _. destruct c as [i s b d [p|]]; simpl in *; rewrite Hc; reflexivity.
  - injection Hchain as Hsa Hanc. subst a. inversion Hpre as [|? ? Ha Hrest]; subst.
    destruct self as [i s b d [p|]]; simpl in *; rewrite Ha.
    + apply IH; assumption.
    + destruct pre; discriminate.
Qed.

Lemma providerFrom_nearest (proto : string) (c : ScopedObjectContext) (post : list ScopedObjectContext) :
  forall (pre : list ScopedObjectContext) (self : ScopedObjectContext),
  self :: ancestors self = pre ++ c :: post ->
  Forall (fun a => provider_supports (objectProvider a) proto = false) pre ->
  provider_supports (objectProvider c) proto = true ->
  providerFrom self proto = Some (objectProvider c).
Proof.
  induction pre as [|a pre IH]; intros self Hchain Hpre Hc.
  - injection Hchain as -> _. destruct c as [i s b d [p|]]; simpl in *; rewrite Hc; reflexivity.
  - injection Hchain as Hsa Hanc. subst a. inversion Hpre as [|? ? Ha Hrest]; subst.
    destruct self as [i s b d [p|]]; simpl in *; rewrite Ha.
    + apply IH; assumption.
    + destruct pre; discriminate.
Qed.

(** [create] hands a constructible input to the nearest resolver that can
    build it: a tagged object, or a sequence led by one, goes whole to the
    factory of the nearest scope (from the requester to the root) that
    supports its tag; a reference string goes, parsed, to the provider of
    the nearest scope that supports its protocol; a sequence of references
    goes, as the list of all parsed references, to the provider of the
    nearest scope that supports the first one's protocol.  In each case
    the builder receives the requesting resolver and the state as it
    was. *)
Theorem create_dispatches_to_nearest
  (fc : ObjectFactory -> jvalue -> ScopedObjectContext -> M jvalue)
  (pp : ObjectProvider -> UriArg -> ScopedObjectContext -> M jvalue)
  (self : ScopedObjectContext) (w : World) :
  (forall (fs : list (string * jvalue)) (t : jvalue) (pre : list ScopedObjectContext)
          (c : ScopedObjectContext) (post : list ScopedObjectContext),
     prop_get fs "hasOwnProperty" = None ->
     prop_get fs "_type" = Some t ->
     self :: ancestors self = pre ++ c :: post ->
     Forall (fun a => factory_supports (objectFactory a) t = false) pre ->
     factory_supports (objectFactory c) t = true ->
     create fc pp self (JObj fs) w = fc (objectFactory c) (JObj fs) self w) /\
  (forall (fs : list (string * jvalue)) (rest : list jvalue) (t : jvalue) (pre : list ScopedObjectContext)
          (c : ScopedObjectContext) (post : list ScopedObjectContext),
     prop_get fs "hasOwnProperty" = None ->
     prop_get fs "_type" = Some t ->
     self :: ancestors self = pre ++ c :: post ->
     Forall (fun a => factory_supports (objectFactory a) t = false) pre ->
     factory_supports (objectFactory c) t = true ->
     create fc pp self (JArr (JObj fs :: rest)) w = fc (objectFactory c) (JArr (JObj fs :: rest)) self w) /\
  (forall (s : string) (u : Uri) (pre : list ScopedObjectContext)
          (c : ScopedObjectContext) (post : list ScopedObjectContext),
     Uri_tryParse (JStr s) = Some u ->
     self :: ancestors self = pre ++ c :: post ->
     Forall (fun a => provider_supports (objectProvider a) (protocol u) = false) pre ->
     provider_supports (objectProvider c) (protocol u) = true ->
     create fc pp self (JStr s) w = pp (objectProvider c) (OneUri u) self w) /\
  (forall (l : list jvalue) (u : Uri) (us : list Uri) (pre : list ScopedObjectContext)
          (c : ScopedObjectContext) (post : list ScopedObjectContext),
     parseAll l = Some (u :: us) ->
     self :: ancestors self = pre ++ c :: post ->
     Forall (fun a => provider_supports (objectProvider a) (protocol u) = false) pre ->
     provider_supports (objectProvider c) (protocol u) = true ->
     create fc pp self (JArr l) w = pp (objectProvider c) (UriList (u :: us)) self w).
Proof.
  split; [|split; [|split]].
  - intros fs t pre c post Hh Ht Hchain Hpre Hc.
    unfold create. simpl String.eqb. cbv iota.
    unfold createTagged, bind, lift, hasOwnType. rewrite Hh, Ht.
    unfold selectFactory, typeOf_field. rewrite Ht.
    change (default JUndef (Some t)) with t.
    rewrite (factoryFrom_nearest t c post pre self Hchain Hpre Hc). reflexivity.
  - intros fs rest t pre c post Hh Ht Hchain Hpre Hc.
    unfold create. simpl String.eqb. cbv iota.
    unfold createTagged, bind, lift, hasOwnType. rewrite Hh, Ht.
    unfold selectFactory, typeOf_field. rewrite Ht.
    change (default JUndef (Some t)) with t.
    rewrite (factoryFrom_nearest t c post pre self Hchain Hpre Hc). reflexivity.
  - intros s u pre c post Hu Hchain Hpre Hc.
    unfold create. cbv beta iota. rewrite Hu. unfold bind, lift, selectProvider.
    rewrite (providerFrom_nearest (protocol u) c post pre self Hchain Hpre Hc). reflexivity.
  - intros l u us pre c post Hl Hchain Hpre Hc.
    destruct l as [|x rest]; [discriminate|].
    assert (Hx : exists s, x = JStr s).
    { simpl in Hl. destruct x; try discriminate. eauto. }
    destruct Hx as [s ->].
    unfold create. simpl String.eqb. cbv iota.
    rewrite Hl. cbn [hd].
    unfold bind, lift, selectProvider.
    rewrite (providerFrom_nearest (protocol u) c post pre self Hchain Hpre Hc). reflexivity.
Qed.

(** An object with an own property named [hasOwnProperty] (as a parsed
    declaration may have) hides the method: [create] on it, or on a
    sequence led by it, throws a [TypeError] and changes nothing, tag or
    no tag. *)
Theorem create_shadowed_hasOwnProperty_raises
  (fc : ObjectFactory -> jvalue -> ScopedObjectContext -> M jvalue)
  (pp : ObjectProvider -> UriArg -> ScopedObjectContext -> M jvalue)
  (self : ScopedObjectContext) (w : World) (fs : list (string * jvalue)) (rest : list jvalue) (h : jvalue) :
  prop_get fs "hasOwnProperty" = Some h ->
  create fc pp self (JObj fs) w = (Throw TypeError, w) /\
  create fc pp self (JArr (JObj fs :: rest)) w = (Throw TypeError, w).
Proof.
  intros Hh. split;
    unfold create; simpl String.eqb; cbv iota;
    unfold createTagged, bind, lift, hasOwnType; rewrite Hh; reflexivity.
Qed.

(** ** Construction of a scope definition *)

Lemma analyze_JArr (l : list jvalue) :
  forall dep, analyzeDirectDependencies dep (JArr l) = analyzeElems dep l.
Proof.
  induction l as [|x l IH]; intros dep; [reflexivity|].
  simpl. destruct (analyzeDirectDependencies dep x) as [d|e]; [exact (IH d) | reflexivity].
Qed.

Lemma analyze_JObj (fs : list (string * jvalue)) :
  forall dep, analyzeDirectDependencies dep (JObj fs) =
    analyzeProps (match prop_get fs "_type" with
                  | Some t => if is_nullish t then dep else setTypeDependency dep t
                  | None => dep
                  end) fs.
Proof.
  intros dep. cbn [analyzeDirectDependencies].
  generalize (match prop_get fs "_type" with
              | Some t => if is_nullish t then dep else setTypeDependency dep t
              | None => dep
              end).
  induction fs as [|[k x] fs IH]; intros d0; [reflexivity|].
  cbn [analyzeProps]. destruct (analyzeDirectDependencies d0 x); [apply IH | reflexivity].
Qed.

Lemma same_value_zero_eq (a b : jvalue) : same_value_zero a b = true -> a = b.
Proof.
  destruct a, b; simpl; try discriminate; try reflexivity; intros H.
  - apply Bool.eqb_prop in H. subst. reflexivity.
  - apply Z.eqb_eq in H. subst. reflexivity.
  - apply String.eqb_eq in H. subst. reflexivity.
Qed.

Lemma setTypeDependency_incl (d : ObjectContextDependency) (t : jvalue) :
  incl (typeDependencies d) (typeDependencies (setTypeDependency d t)) /\
  In t (typeDependencies (setTypeDependency d t)) /\
  protocolDependencies (setTypeDependency d t) = protocolDependencies d.
Proof.
  unfold setTypeDependency. simpl.
  destruct (existsb (same_value_zero t) (typeDependencies d)) eqn:E.
  - apply existsb_exists in E as (x & Hx & Hs). apply same_value_zero_eq in Hs. subst x.
    split; [apply incl_refl|]. split; [exact Hx | reflexivity].
  - split; [apply incl_appl, incl_refl|]. split; [apply in_or_app; right; left; reflexivity | reflexivity].
Qed.

Lemma set_add_incl (s : list string) (x : string) : incl s (set_add s x) /\ In x (set_add s x).
Proof.
  unfold set_add. destruct (existsb (String.eqb x) s) eqn:E.
  - apply existsb_eqb_In in E. split; [apply incl_refl | exact E].
  - split; [apply incl_appl, incl_refl | apply in_or_app; right; left; reflexivity].
Qed.

(** [analyzeDirectDependencies] keeps what the sets held and adds every
    type tag and every reference protocol of the value. *)
Lemma analyze_collects :
  forall (v : jvalue) (dep dep' : ObjectContextDependency),
  analyzeDirectDependencies dep v = Ok dep' ->
  incl (typeDependencies dep) (typeDependencies dep') /\
  incl (protocolDependencies dep) (protocolDependencies dep') /\
  incl (typeTags v) (typeDependencies dep') /\
  incl (uriProtocols v) (protocolDependencies dep').
Proof.
  fix IH 1. intros v dep dep' H. destruct v as [| |b|z|s|l|fs].
  - simpl in H. inversion H; subst. repeat split; simpl; auto using incl_refl, incl_nil_l.
  - discriminate.
  - simpl in H. inversion H; subst. repeat split; simpl; auto using incl_refl, incl_nil_l.
  - simpl in H. inversion H; subst. repeat split; simpl; auto using incl_refl, incl_nil_l.
  - change (match Uri_tryParse (JStr s) with
            | Some u => Ok (setProtocolDependency dep (protocol u))
            | None => Ok dep
            end = Ok dep') in H.
    simpl typeTags. unfold uriProtocols.
    destruct (Uri_tryParse (JStr s)) as [u|]; inversion H; subst.
    + destruct (set_add_incl (protocolDependencies dep) (protocol u)) as [Hi Hin].
      repeat split; simpl; auto using incl_refl, incl_nil_l.
      intros x [<-|[]]. exact Hin.
    + repeat split; simpl; auto using incl_refl, incl_nil_l.
  - rewrite analyze_JArr in H. simpl typeTags. simpl uriProtocols.
    revert l dep H. fix IHl 1. intros [|x l] dep H; cbn [analyzeElems] in H.
    + inversion H; subst. repeat split; simpl; auto using incl_refl, incl_nil_l.
    + destruct (analyzeDirectDependencies dep x) as [d1|e] eqn:E; [|discriminate].
      destruct (IH x dep d1 E) as (T1 & P1 & TT1 & UP1).
      destruct (IHl l d1 H) as (T2 & P2 & TT2 & UP2).
      repeat split; simpl.
      * exact (incl_tran T1 T2).
      * exact (incl_tran P1 P2).
      * apply incl_app; [exact (incl_tran TT1 T2) | exact TT2].
      * apply incl_app; [exact (incl_tran UP1 P2) | exact UP2].
  - rewrite analyze_JObj in H.
    assert (Hprops : forall d0,
      analyzeProps d0 fs = Ok dep' ->
      incl (typeDependencies d0) (typeDependencies dep') /\
      incl (protocolDependencies d0) (protocolDependencies dep') /\
      incl (flat_map (fun '(_, x) => typeTags x) fs) (typeDependencies dep') /\
      incl (flat_map (fun '(_, x) => uriProtocols x) fs) (protocolDependencies dep')).
    { clear H. revert fs. fix IHf 1. intros [|[k x] fs] d0 Hp; cbn [analyzeProps] in Hp.
      - inversion Hp; subst. repeat split; simpl; auto using incl_refl, incl_nil_l.
      - destruct (analyzeDirectDependencies d0 x) as [d1|e] eqn:E; [|discriminate].
        destruct (IH x d0 d1 E) as (T1 & P1 & TT1 & UP1).
        destruct (IHf fs d1 Hp) as (T2 & P2 & TT2 & UP2).
        repeat split; simpl.
        + exact (incl_tran T1 T2).
        + exact (incl_tran P1 P2).
        + apply incl_app; [exact (incl_tran TT1 T2) | exact TT2].
        + apply incl_app; [exact (incl_tran UP1 P2) | exact UP2]. }
    destruct (Hprops _ H) as (T & P & TT & UP).
    simpl typeTags. simpl uriProtocols.
    destruct (prop_get fs "_type") as [t|]; [destruct (is_nullish t)|].
    + repeat split; auto.
    + destruct (setTypeDependency_incl dep t) as (Ti & Tin & Tp).
      rewrite Tp in P.
      repeat split; auto.
      * exact (incl_tran Ti T).
      * apply incl_app; [|exact TT]. intros x [<-|[]]. apply T. exact Tin.
    + repeat split; auto.
Qed.

Lemma checkTypeDeps_ok (self : ScopedObjectContextDef) (n : string) (ts : list jvalue) :
  checkTypeDeps self n ts = Ok tt -> Forall (fun t => getTypeDef self t defaultMaxDepth <> None) ts.
Proof.
  induction ts as [|t ts IH]; cbn [checkTypeDeps]; [constructor|].
  destruct (getTypeDef self t defaultMaxDepth) eqn:E; intros H; [|discriminate].
  constructor; [cbv beta; rewrite E; discriminate | exact (IH H)].
Qed.

Lemma checkProtocolDeps_ok (self : ScopedObjectContextDef) (n : string) (ps : list string) :
  checkProtocolDeps self n ps = Ok tt -> Forall (fun p => getProviderDef self p defaultMaxDepth <> None) ps.
Proof.
  induction ps as [|p ps IH]; cbn [checkProtocolDeps]; [constructor|].
  destruct (getProviderDef self p defaultMaxDepth) eqn:E; intros H; [|discriminate].
  constructor; [cbv beta; rewrite E; discriminate | exact (IH H)].
Qed.

(** The first pass keeps every declaration's name and value, in order, and
    accepts a declaration only when every type tag and reference protocol
    of its value resolves from the definition with the default budget. *)
Lemma firstPass_ok (self : ScopedObjectContextDef) :
  forall (defs defs' : list NamedObjectDef),
  firstPass self defs = Ok defs' ->
  map name defs' = map name defs /\ map value defs' = map value defs /\
  Forall (fun od =>
    Forall (fun t => getTypeDef self t defaultMaxDepth <> None) (typeTags (value od)) /\
    Forall (fun p => getProviderDef self p defaultMaxDepth <> None) (uriProtocols (value od))) defs.
Proof.
  induction defs as [|d defs IH]; intros defs' H; simpl in H.
  - inversion H; subst. repeat split; constructor.
  - destruct (analyzeDirectDependencies emptyDependency (value d)) as [deps|e] eqn:E; [|discriminate].
    destruct (checkTypeDeps self (name d) (typeDependencies deps)) as [[]|e] eqn:Ct; [|discriminate].
    destruct (checkProtocolDeps self (name d) (protocolDependencies deps)) as [[]|e] eqn:Cp; [|discriminate].
    destruct (firstPass self defs) as [rest'|e] eqn:F; [|discriminate].
    inversion H; subst. destruct (IH rest' eq_refl) as (Hn & Hv & Hall).
    destruct (analyze_collects _ _ _ E) as (_ & _ & TT & UP).
    apply checkTypeDeps_ok in Ct. apply checkProtocolDeps_ok in Cp.
    rewrite List.Forall_forall in Ct, Cp.
    split; [simpl; f_equal; exact Hn|]. split; [simpl; f_equal; exact Hv|].
    constructor; [|exact Hall]. split; apply List.Forall_forall; intros x Hx.
    + apply Ct, TT, Hx.
    + apply Cp, UP, Hx.
Qed.

Lemma new_ScopedObjectContextDef_ok (p : option ScopedObjectContextDef) (tds : list TypeDef)
  (pds : list ProviderDef) (ods : list NamedObjectDef) (b : bool) (d' : ScopedObjectContextDef) :
  new_ScopedObjectContextDef p tds pds ods b = Ok d' ->
  exists defs', d' = mkScopedObjectContextDef p tds pds defs' /\
    (b = false -> defs' = ods) /\
    (b = true -> firstPass (mkScopedObjectContextDef p tds pds ods) ods = Ok defs').
Proof.
  unfold new_ScopedObjectContextDef. destruct b.
  - unfold analyzeNamedObjectDependencies. simpl namedObjectDefs.
    destruct (firstPass _ ods) as [defs|e] eqn:F; [|discriminate].
    rewrite secondPass_identity.
    2:{ eapply Forall_impl; [exact (firstPass_objects _ _ _ F)|]. intros d [deps [Hd _]]. congruence. }
    intros H. inversion H; subst.
    exists defs. split; [reflexivity|]. split; [discriminate | intros _; reflexivity].
  - intros H. inversion H; subst. exists ods. split; [reflexivity|]. split; [reflexivity | discriminate].
Qed.

Lemma getTypeDef_same_types (p : option ScopedObjectContextDef) (tds : list TypeDef)
  (pds : list ProviderDef) (x y : list NamedObjectDef) (t : jvalue) (n : Z) :
  getTypeDef (mkScopedObjectContextDef p tds pds x) t n = getTypeDef (mkScopedObjectContextDef p tds pds y) t n.
Proof. destruct p; reflexivity. Qed.

Lemma getProviderDef_same_providers (p : option ScopedObjectContextDef) (tds : list TypeDef)
  (pds : list ProviderDef) (x y : list NamedObjectDef) (pr : string) (n : Z) :
  getProviderDef (mkScopedObjectContextDef p tds pds x) pr n = getProviderDef (mkScopedObjectContextDef p tds pds y) pr n.
Proof. destruct p; reflexivity. Qed.


(** Construction with dependency analysis enabled succeeds only when every
    type tag anywhere in a declared value names a type declared by the
    definition or an ancestor within the default 32 hops, and the
    protocol of every reference string anywhere in a declared value has a
    provider declared there. *)
Theorem construction_checks_references (p : option ScopedObjectContextDef) (tds : list TypeDef)
  (pds : list ProviderDef) (ods : list NamedObjectDef) (d' : ScopedObjectContextDef) :
  new_ScopedObjectContextDef p tds pds ods true = Ok d' ->
  Forall (fun od =>
    Forall (fun t => getTypeDef d' t defaultMaxDepth <> None) (typeTags (value od)) /\
    Forall (fun pr => getProviderDef d' pr defaultMaxDepth <> None) (uriProtocols (value od))) ods.
Proof.
  intros H. destruct (new_ScopedObjectContextDef_ok p tds pds ods true d' H) as (defs' & -> & _ & Ht).
  destruct (firstPass_ok _ ods defs' (Ht eq_refl)) as (_ & _ & Hall).
  eapply Forall_impl; [exact Hall|]. intros od [Ht' Hp']. split.
  - eapply Forall_impl; [exact Ht'|]. intros t Hn. rewrite <- (getTypeDef_same_types p tds pds ods defs'). exact Hn.
  - eapply Forall_impl; [exact Hp'|]. intros pr Hn. rewrite <- (getProviderDef_same_providers p tds pds ods defs'). exact Hn.
Qed.

Lemma getTypeDef_non_string (t : jvalue) (Ht : forall s, t <> JStr s) :
  forall (d : ScopedObjectContextDef) (n : Z), getTypeDef d t n = None.
Proof.
  assert (Hm : forall m : list (string * TypeDef), map_get_any m t = None).
  { intros m. destruct t; try reflexivity. exfalso. exact (Ht s eq_refl). }
  fix IH 1. intros [[p|] tds pds ods] n; simpl; rewrite Hm; [|destruct (0 <? n); reflexivity].
  destruct (0 <? n); [apply IH | reflexivity].
Qed.

(** A [_type] that is not a string (a number, a boolean, an object, ...)
    is never found, since the maps have string keys: construction with
    dependency analysis enabled fails when such a tag occurs anywhere in a
    declared value. *)
Theorem construction_rejects_non_string_tag (p : option ScopedObjectContextDef) (tds : list TypeDef)
  (pds : list ProviderDef) (ods : list NamedObjectDef) (od : NamedObjectDef) (t : jvalue) :
  In od ods -> In t (typeTags (value od)) -> (forall s, t <> JStr s) ->
  exists e, new_ScopedObjectContextDef p tds pds ods true = Throw e.
Proof.
  intros Hod Ht Hns.
  destruct (new_ScopedObjectContextDef p tds pds ods true) as [d'|e] eqn:E; [exfalso | eauto].
  destruct (new_ScopedObjectContextDef_ok p tds pds ods true d' E) as (defs' & _ & _ & Hfp).
  destruct (firstPass_ok _ ods defs' (Hfp eq_refl)) as (_ & _ & Hall).
  rewrite List.Forall_forall in Hall. destruct (Hall od Hod) as [Htags _].
  rewrite List.Forall_forall in Htags. apply (Htags t Ht).
  apply getTypeDef_non_string. exact Hns.
Qed.

(** ** Witnesses on the three-level scenario *)

Lemma get_returns_named_witness : name (no_def appBase) = "base".
Proof.
  apply (get_returns_named echo_factory echo_provider appCtx "base" world0 world1 appBase).
  vm_compute. reflexivity.
Defined.

Lemma get_idempotent_witness :
  get echo_factory echo_provider appCtx "base" world1 = (Ok (Some appBase), world1).
Proof.
  apply (get_idempotent echo_factory echo_provider appCtx "base" world0 world1 appBase).
  vm_compute. reflexivity.
Defined.

Lemma get_raises_only_from_create_witness :
  exists a o, In a (appCtx :: ancestors appCtx) /\ registry_get (registry_of world0Raw a) "base" = Some o /\
    (create echo_factory echo_provider appCtx (value (no_def o)) world0Raw = (Throw TypeError, world0Raw) \/
     (TypeError = TypeError /\ world0Raw = world0Raw /\ dependencies (no_def o) = None /\
      (typeDefs (def appCtx) <> [] \/ providerDefs (def appCtx) <> [] \/ namedObjectDefs (def appCtx) <> []))).
Proof.
  apply (get_raises_only_from_create echo_factory echo_provider appCtx "base" world0Raw world0Raw TypeError).
  vm_compute. reflexivity.
Defined.

Lemma create_shadowed_hasOwnProperty_raises_witness :
  create echo_factory echo_provider requestCtx (JObj [("hasOwnProperty", JNum 1); ("_type", JStr "Number")]) world0
    = (Throw TypeError, world0) /\
  create echo_factory echo_provider requestCtx (JArr [JObj [("hasOwnProperty", JNum 1); ("_type", JStr "Number")]]) world0
    = (Throw TypeError, world0).
Proof.
  apply (create_shadowed_hasOwnProperty_raises echo_factory echo_provider requestCtx world0
           [("hasOwnProperty", JNum 1); ("_type", JStr "Number")] [] (JNum 1)).
  reflexivity.
Defined.


Lemma construction_checks_references_witness :
  exists d',
    new_ScopedObjectContextDef None [numberDecl] [fileDecl] [docDecl] true = Ok d' /\
    Forall (fun od =>
      Forall (fun t => getTypeDef d' t defaultMaxDepth <> None) (typeTags (value od)) /\
      Forall (fun pr => getProviderDef d' pr defaultMaxDepth <> None) (uriProtocols (value od))) [docDecl].
Proof.
  eexists. split; [vm_compute; reflexivity|].
  apply (construction_checks_references None [numberDecl] [fileDecl] [docDecl]).
  vm_compute. reflexivity.
Defined.

Lemma construction_rejects_non_string_tag_witness :
  exists e, new_ScopedObjectContextDef None [numberDecl] [] [badTagDecl] true = Throw e.
Proof.
  apply (construction_rejects_non_string_tag None [numberDecl] [] [badTagDecl] badTagDecl (JNum 5)).
  - simpl. left. reflexivity.
  - simpl. left. reflexivity.
  - intros s. discriminate.
Defined.
